(** * json-conditions: the rule evaluator and its path resolver

    A shallow embedding of [src/index.js] (the evaluator with the lodash
    style [get]) and of its reduced sibling [src/unnamed/part_000] (the same
    evaluator over a reduced [get]), and the properties of the
    specification checked against them.

    Layout:
    - [JS]: the JavaScript values the program handles and the built-in
      operators it applies to them;
    - [Lodash]: [isKey], [stringToPath], [castPath], [toKey], [baseGet],
      [get] and [toString] of [src/index.js];
    - [Reduced]: the same functions as [src/unnamed/part_000] has them;
    - [Evaluator]: [checkConditions], written once over the resolver it is
      linked with, in a state and exception monad;
    - the wording of the specification ([spec_...], [resolve_spec]) and
      the test data;
    - the properties of the specification, and further properties of the
      code (the path grammar, the cache, the aggregation, the operators,
      the trace and the wildcard). *)

From Stdlib Require Import ZArith String Ascii DecimalString Bool Lia PeanoNat List.
Import ListNotations.

Set Warnings "-register-all".

Local Open Scope string_scope.
Local Open Scope list_scope.

(** ** Characters and strings

    A string is a sequence of 8-bit code units.  The literals the program
    uses are all ASCII. *)

Definition nl : string := String "010"%char EmptyString.
Definition dquote : ascii := "034"%char.
Definition squote : ascii := "039"%char.
Definition backslash : ascii := "092"%char.

Definition chars (s : string) : list ascii := list_ascii_of_string s.
Definition text (l : list ascii) : string := string_of_list_ascii l.

Definition ascii_in (lo hi : nat) (c : ascii) : bool :=
  (lo <=? nat_of_ascii c)%nat && (nat_of_ascii c <=? hi)%nat.

Definition isDigit (c : ascii) : bool := ascii_in 48 57 c.

(** [\w] of a regular expression: [A-Za-z0-9_]. *)
Definition isWordChar (c : ascii) : bool :=
  ascii_in 97 122 c || ascii_in 65 90 c || isDigit c || Ascii.eqb c "_"%char.

(** White space as [String.prototype.trim] and the numeric reading of a
    string see it (tab, line feed, vertical tab, form feed, carriage
    return, space, no-break space). *)
Definition isSpace (c : ascii) : bool :=
  ascii_in 9 13 c || Ascii.eqb c " "%char || (nat_of_ascii c =? 160)%nat.

(** Line terminators, the characters [.] does not match. *)
Definition isLineTerminator (c : ascii) : bool :=
  (nat_of_ascii c =? 10)%nat || (nat_of_ascii c =? 13)%nat.

Fixpoint dropWhile {A} (p : A -> bool) (l : list A) : list A :=
  match l with
  | [] => []
  | x :: t => if p x then dropWhile p t else l
  end.

Fixpoint takeWhile {A} (p : A -> bool) (l : list A) : list A :=
  match l with
  | [] => []
  | x :: t => if p x then x :: takeWhile p t else []
  end.

(** [String.prototype.trim]. *)
Definition trim (l : list ascii) : list ascii :=
  rev (dropWhile isSpace (rev (dropWhile isSpace l))).

Fixpoint isPrefix (p s : list ascii) : bool :=
  match p, s with
  | [], _ => true
  | _ :: _, [] => false
  | a :: p', b :: s' => Ascii.eqb a b && isPrefix p' s'
  end.

(** [String.prototype.includes]: [p] occurs somewhere in [s]. *)
Fixpoint isInfix (p s : list ascii) : bool :=
  isPrefix p s ||
  match s with
  | [] => false
  | _ :: s' => isInfix p s'
  end.

Definition startsWith (s p : string) : bool := isPrefix (chars p) (chars s).
Definition endsWith (s p : string) : bool :=
  isPrefix (rev (chars p)) (rev (chars s)).
Definition includes (s p : string) : bool := isInfix (chars p) (chars s).

Definition natToString (n : nat) : string :=
  NilZero.string_of_uint (Nat.to_uint n).

Definition toLowerChar (c : ascii) : ascii :=
  if ascii_in 65 90 c then ascii_of_nat (nat_of_ascii c + 32) else c.

(** [String.prototype.toLowerCase] on the ASCII letters. *)
Definition toLowerCase (s : string) : string := text (map toLowerChar (chars s)).

(** ** JavaScript values and built-in operators *)

Module JS.

(** The values a reference, a rule operand or a callback result can be:
    what [JSON.parse] produces, and [undefined].  Numbers are the integers
    (those JavaScript prints in plain decimal digits); an object is the
    ordered list of its own properties, with distinct keys (a lookup
    returns the first binding).  Properties inherited from the built-in
    prototypes, accessors and function-valued properties are outside this
    domain. *)
Inductive JSValue : Type :=
| VUndefined
| VNull
| VBool (b : bool)
| VNumber (n : Z)
| VString (s : string)
| VArray (elems : list JSValue)
| VObject (fields : list (string * JSValue)).

(** A rule object: its [property], [op], [value] and [required]
    properties ([undefined] where the object lacks one). *)
Record Rule : Type := mkRule {
  rule_property : JSValue;
  rule_op : JSValue;
  rule_value : JSValue;
  rule_required : JSValue
}.

(** What the program throws: [new Error(message)], with the [rule]
    property the evaluator attaches to it, or a [TypeError] raised by the
    runtime (a method called on [undefined], a call of a non-function). *)
Inductive JSError : Type :=
| Error (message : string) (rule : option Rule)
| TypeError.

(** A computation that returns or throws. *)
Inductive Outcome (A : Type) : Type :=
| Return (a : A)
| Throw (e : JSError).
Arguments Return {A} a.
Arguments Throw {A} e.

(** The decimal form of a number.  Numbers are the integers; for those
    below [10^21] in magnitude this is what JavaScript prints, and the
    exponent notation it uses from there on is outside the model. *)
Definition numberToString (n : Z) : string := NilZero.string_of_int (Z.to_int n).

(** [ToString], as a template literal [`${v}`] applies it.  An array is
    joined with commas, [null] and [undefined] elements giving the empty
    string. *)
Fixpoint ToString (v : JSValue) : string :=
  match v with
  | VUndefined => "undefined"
  | VNull => "null"
  | VBool true => "true"
  | VBool false => "false"
  | VNumber n => numberToString n
  | VString s => s
  | VArray elems =>
      (fix join (l : list JSValue) : string :=
         match l with
         | [] => EmptyString
         | x :: rest =>
             ((match x with
               | VUndefined | VNull => EmptyString
               | _ => ToString x
               end) ++
              (match rest with
               | [] => EmptyString
               | _ :: _ => "," ++ join rest
               end))%string
         end) elems
  | VObject _ => "[object Object]"
  end.

(** [typeof v]. *)
Definition typeof (v : JSValue) : string :=
  match v with
  | VUndefined => "undefined"
  | VNull => "object"
  | VBool _ => "boolean"
  | VNumber _ => "number"
  | VString _ => "string"
  | VArray _ | VObject _ => "object"
  end.

(** [!!v]. *)
Definition truthy (v : JSValue) : bool :=
  match v with
  | VUndefined | VNull => false
  | VBool b => b
  | VNumber n => negb (n =? 0)%Z
  | VString s => negb (String.eqb s EmptyString)
  | VArray _ | VObject _ => true
  end.

(** [v == null]. *)
Definition isNullish (v : JSValue) : bool :=
  match v with
  | VUndefined | VNull => true
  | _ => false
  end.

Definition isArray (v : JSValue) : bool :=
  match v with
  | VArray _ => true
  | _ => false
  end.

(** An array index in canonical form: the decimal digits of a natural
    number, without leading zeros. *)
Fixpoint digitsToNat (acc : nat) (l : list ascii) : nat :=
  match l with
  | [] => acc
  | c :: t => digitsToNat (10 * acc + (nat_of_ascii c - 48)) t
  end.

Definition arrayIndex (key : string) : option nat :=
  match chars key with
  | [] => None
  | l =>
      if forallb isDigit l then
        let n := digitsToNat 0 l in
        if String.eqb (natToString n) key then Some n else None
      else None
  end.

Fixpoint lookupField (key : string) (fields : list (string * JSValue)) : option JSValue :=
  match fields with
  | [] => None
  | (k, v) :: rest => if String.eqb k key then Some v else lookupField key rest
  end.

(** The own property [key] of [Object(o)], if there is one.  The values
    are JSON data: what an object inherits from its prototype (its
    constructor, the methods of arrays and strings) is outside the model.
    A string is a sequence of 8-bit code units, which is its sequence of
    UTF-16 code units when every character is below 256. *)
Definition ownProperty (o : JSValue) (key : string) : option JSValue :=
  match o with
  | VObject fields => lookupField key fields
  | VArray elems =>
      if String.eqb key "length" then Some (VNumber (Z.of_nat (length elems)))
      else match arrayIndex key with
           | Some i => nth_error elems i
           | None => None
           end
  | VString s =>
      if String.eqb key "length" then Some (VNumber (Z.of_nat (String.length s)))
      else match arrayIndex key with
           | Some i => option_map (fun c => VString (String c EmptyString)) (nth_error (chars s) i)
           | None => None
           end
  | _ => None
  end.

(** [o[key]] for [o] other than [null] and [undefined], on the
    properties [ownProperty] has: a key the value does not own reads as
    [undefined]. *)
Definition getProperty (o : JSValue) (key : string) : JSValue :=
  match ownProperty o key with
  | Some v => v
  | None => VUndefined
  end.

(** [key in Object(o)]. *)
Definition hasProperty (o : JSValue) (key : string) : bool :=
  match ownProperty o key with
  | Some _ => true
  | None => false
  end.

(** [ToPrimitive]: arrays and objects become their string. *)
Definition ToPrimitive (v : JSValue) : JSValue :=
  match v with
  | VArray _ | VObject _ => VString (ToString v)
  | _ => v
  end.

Fixpoint digitsToZ (acc : Z) (l : list ascii) : option Z :=
  match l with
  | [] => Some acc
  | c :: t =>
      if isDigit c then digitsToZ (10 * acc + Z.of_nat (nat_of_ascii c - 48)) t
      else None
  end.

(** The number a string reads as; [None] is [NaN].  White space is
    trimmed, the empty string is [0], and a decimal integer literal with
    an optional sign is its value.  The other literals JavaScript reads
    (fractions, exponents, radix prefixes, [Infinity]) denote numbers
    outside the integers and read as [NaN] here. *)
Definition StringToNumber (s : string) : option Z :=
  match trim (chars s) with
  | [] => Some 0%Z
  | c :: t =>
      if Ascii.eqb c "-"%char then
        match t with [] => None | _ => option_map Z.opp (digitsToZ 0 t) end
      else if Ascii.eqb c "+"%char then
        match t with [] => None | _ => digitsToZ 0 t end
      else digitsToZ 0 (c :: t)
  end.

(** [ToNumber]; [None] is [NaN].  Numbers are kept exact: the rounding of
    doubles beyond [2^53] is outside the model. *)
Definition ToNumber (v : JSValue) : option Z :=
  match ToPrimitive v with
  | VUndefined => None
  | VNull => Some 0%Z
  | VBool true => Some 1%Z
  | VBool false => Some 0%Z
  | VNumber n => Some n
  | VString s => StringToNumber s
  | _ => None
  end.

(** [a === b].  Arrays and objects compare by identity; the operands the
    evaluator compares are distinct objects (a rule operand against a part
    of the reference or a freshly mapped array), so two of them are never
    identical. *)
Definition strictEquals (a b : JSValue) : bool :=
  match a, b with
  | VUndefined, VUndefined => true
  | VNull, VNull => true
  | VBool x, VBool y => Bool.eqb x y
  | VNumber x, VNumber y => (x =? y)%Z
  | VString x, VString y => String.eqb x y
  | _, _ => false
  end.

Definition isContainer (v : JSValue) : bool :=
  match v with
  | VArray _ | VObject _ => true
  | _ => false
  end.

(** [a == b], the abstract equality comparison. *)
Definition looseEquals (a b : JSValue) : bool :=
  if isNullish a || isNullish b then isNullish a && isNullish b
  else if isContainer a && isContainer b then false
  else
    match ToPrimitive a, ToPrimitive b with
    | VString x, VString y => String.eqb x y
    | pa, pb =>
        match ToNumber pa, ToNumber pb with
        | Some x, Some y => (x =? y)%Z
        | _, _ => false
        end
    end.

(** The abstract relational comparison [a < b]; [None] is its
    [undefined] result (an operand is [NaN]). *)
Definition lessThan (a b : JSValue) : option bool :=
  match ToPrimitive a, ToPrimitive b with
  | VString x, VString y => Some (String.ltb x y)
  | pa, pb =>
      match ToNumber pa, ToNumber pb with
      | Some x, Some y => Some (x <? y)%Z
      | _, _ => None
      end
  end.

(** [a < b], [a > b], [a <= b], [a >= b]. *)
Definition lt (a b : JSValue) : bool :=
  match lessThan a b with Some r => r | None => false end.
Definition gt (a b : JSValue) : bool :=
  match lessThan b a with Some r => r | None => false end.
Definition lte (a b : JSValue) : bool :=
  match lessThan b a with Some r => negb r | None => false end.
Definition gte (a b : JSValue) : bool :=
  match lessThan a b with Some r => negb r | None => false end.

(** [Array.prototype.includes] (on this domain [SameValueZero] is [===]). *)
Definition arrayIncludes (l : list JSValue) (x : JSValue) : bool :=
  existsb (fun v => strictEquals v x) l.

(** [Array.prototype.find]: the first element satisfying [p], else
    [undefined]. *)
Definition arrayFind (p : JSValue -> bool) (l : list JSValue) : JSValue :=
  match List.find p l with
  | Some v => v
  | None => VUndefined
  end.

End JS.

Import JS.

(** ** The path resolver of [src/index.js] *)

Module Lodash.

(** [reIsPlainProp = /^\w*$/]. *)
Definition reIsPlainProp_test (s : string) : bool := forallb isWordChar (chars s).

Definition isBracket (c : ascii) : bool := Ascii.eqb c "["%char || Ascii.eqb c "]"%char.
Definition isQuote (c : ascii) : bool := Ascii.eqb c dquote || Ascii.eqb c squote.

Definition beginsWith (c : ascii) (l : list ascii) : bool :=
  match l with
  | d :: _ => Ascii.eqb c d
  | [] => false
  end.

(** The body of a quoted key (any character but the quote [q] and the
    backslash, or a backslash and the character after it, repeated lazily)
    followed by the closing quote [q]: the text before the first unescaped
    [q], and what follows that quote.  A backslash takes the next character with it (any
    but a line terminator); the match is lazy, so the first unescaped
    quote closes the body. *)
Fixpoint quotedBody (q : ascii) (l : list ascii) : option (list ascii * list ascii) :=
  match l with
  | [] => None
  | c :: t =>
      if Ascii.eqb c q then Some ([], t)
      else if Ascii.eqb c backslash then
        match t with
        | d :: t' =>
            if isLineTerminator d then None
            else match quotedBody q t' with
                 | Some (body, rest) => Some (c :: d :: body, rest)
                 | None => None
                 end
        | [] => None
        end
      else match quotedBody q t with
           | Some (body, rest) => Some (c :: body, rest)
           | None => None
           end
  end.

(** The bracket alternative of [reIsDeepProp], after its opening
    bracket: either characters other than brackets up to a closing
    bracket, or a quoted body, its closing quote and a closing bracket. *)
Definition deepBracket (t : list ascii) : bool :=
  beginsWith "]"%char (dropWhile (fun c => negb (isBracket c)) t) ||
  match t with
  | q :: t' =>
      isQuote q &&
      match quotedBody q t' with
      | Some (_, rest) => beginsWith "]"%char rest
      | None => false
      end
  | [] => false
  end.

(** [reIsDeepProp.test]: the pattern matches somewhere in the string. *)
Fixpoint reIsDeepProp_chars (l : list ascii) : bool :=
  match l with
  | [] => false
  | c :: t =>
      Ascii.eqb c "."%char ||
      (Ascii.eqb c "["%char && deepBracket t) ||
      reIsDeepProp_chars t
  end.

Definition reIsDeepProp_test (s : string) : bool := reIsDeepProp_chars (chars s).

(** [isKey(value, object)].  The regular expressions and [in] read a value
    that is not a string through [ToString]. *)
Definition isKey (value object : JSValue) : bool :=
  if isArray value then false
  else
    match value with
    | VNumber _ | VBool _ | VUndefined | VNull => true
    | _ =>
        reIsPlainProp_test (ToString value) ||
        negb (reIsDeepProp_test (ToString value)) ||
        (negb (isNullish object) && hasProperty object (ToString value))
    end.

(** The prefix of [l] before its last element satisfying [p]. *)
Fixpoint beforeLast (p : ascii -> bool) (l : list ascii) : option (list ascii) :=
  match l with
  | [] => None
  | c :: t =>
      match beforeLast p t with
      | Some pre => Some (c :: pre)
      | None => if p c then Some [] else None
      end
  end.

(** [reEscapeChar] replaced by its first group: a doubled backslash
    becomes one, a single backslash disappears. *)
Fixpoint unescape (l : list ascii) : list ascii :=
  match l with
  | [] => []
  | c :: t =>
      if Ascii.eqb c backslash then
        match t with
        | d :: t' => if Ascii.eqb d backslash then backslash :: unescape t' else unescape t
        | [] => []
        end
      else c :: unescape t
  end.

Definition isSeparator (c : ascii) : bool := Ascii.eqb c "."%char || isBracket c.

(** The text starts with a dot or with an empty pair of brackets; what
    follows it. *)
Definition afterGap (l : list ascii) : option (list ascii) :=
  match l with
  | c :: t =>
      if Ascii.eqb c "."%char then Some t
      else if Ascii.eqb c "["%char then
        match t with
        | d :: t' => if Ascii.eqb d "]"%char then Some t' else None
        | [] => None
        end
      else None
  | [] => None
  end.

(** One match of [rePropName] at the start of [l]: the key the callback of
    [stringToPath] pushes for it, and the length of the match.  The three
    alternatives are tried in the order of the pattern:
    - a run of characters other than [.], [[] and []];
    - a bracket: either an unquoted expression (its first character is
      not a quote, and [[^[]*] runs greedily to the last []] before the
      next [[]), pushed trimmed, or a quoted string, pushed unescaped;
    - the empty match before a dot or an empty pair of brackets, when a
      dot, an empty pair of brackets or the end of the string follows. *)
Definition matchPropName (l : list ascii) : option (string * nat) :=
  match takeWhile (fun c => negb (isSeparator c)) l with
  | (_ :: _) as run => Some (text run, length run)
  | [] =>
      let bracket :=
        match l with
        | c :: q :: t =>
            if Ascii.eqb c "["%char then
              if isQuote q then
                match quotedBody q t with
                | Some (subString, rest) =>
                    if beginsWith "]"%char rest
                    then Some (text (unescape subString), length l - (length rest - 1))
                    else None
                | None => None
                end
              else
                match beforeLast (Ascii.eqb "]"%char)
                        (takeWhile (fun d => negb (Ascii.eqb d "["%char)) t) with
                | Some pre => Some (text (trim (q :: pre)), 3 + length pre)
                | None => None
                end
            else None
        | _ => None
        end in
      match bracket with
      | Some m => Some m
      | None =>
          match afterGap l with
          | Some rest =>
              match rest with
              | [] => Some (EmptyString, 0)
              | _ => match afterGap rest with
                     | Some _ => Some (EmptyString, 0)
                     | None => None
                     end
              end
          | None => None
          end
      end
  end.

(** [string.replace(rePropName, callback)] with the global flag: the
    pattern is tried at each position from left to right; after a match the
    search resumes at its end, or one character further when the match is
    empty.  [skip] counts the characters still covered by the last match. *)
Fixpoint propNames (skip : nat) (l : list ascii) : list string :=
  match l with
  | [] => []
  | _ :: t =>
      match skip with
      | S k => propNames k t
      | O =>
          match matchPropName l with
          | Some (key, len) => key :: propNames (pred len) t
          | None => propNames 0 t
          end
      end
  end.

(** The function [stringToPath] memoizes, lines 93-109. *)
Definition stringToPath (s : string) : list string :=
  (if beginsWith "."%char (chars s) then [EmptyString] else []) ++
  propNames 0 (chars s).

(** The cache of [memoize]: a [Map] from path strings to paths, in
    insertion order. *)
Definition Cache : Type := list (string * list string).

Definition MAX_MEMOIZE_SIZE : nat := 500.

Fixpoint cacheGet (key : string) (cache : Cache) : option (list string) :=
  match cache with
  | [] => None
  | (k, result) :: rest => if String.eqb k key then Some result else cacheGet key rest
  end.

(** [cache.set(key, result)] for a key the cache does not have. *)
Definition cacheSet (key : string) (result : list string) (cache : Cache) : Cache :=
  cache ++ [(key, result)].

(** The resolver [memoizeCapped] hands to [memoize]: it empties the cache
    when it holds [MAX_MEMOIZE_SIZE] entries and returns the key. *)
Definition cappedResolver (key : string) (cache : Cache) : string * Cache :=
  (key, if (length cache =? MAX_MEMOIZE_SIZE)%nat then [] else cache).

(** The function [memoize(func, resolver)] returns, applied to one
    argument: the result and the cache it leaves. *)
Definition memoize (func : string -> list string)
    (resolver : string -> Cache -> string * Cache)
    (arg : string) (cache : Cache) : list string * Cache :=
  let '(key, cache1) := resolver arg cache in
  match cacheGet key cache1 with
  | Some result => (result, cache1)
  | None => let result := func arg in (result, cacheSet key result cache1)
  end.

Definition memoizeCapped (func : string -> list string) : string -> Cache -> list string * Cache :=
  memoize func cappedResolver.

(** [stringToPath] as the program holds it, over its cache.  The cache
    only ever holds what [stringToPath] computes
    ([stringToPath_cached_spec] below), so the resolver is written over the
    function itself. *)
Definition stringToPath_cached : string -> Cache -> list string * Cache :=
  memoizeCapped stringToPath.

(** [castPath(value, object)].  Given a value that is neither an array, a
    key nor a string, [stringToPath] calls [charCodeAt] on it and the
    runtime throws. *)
Definition castPath (value object : JSValue) : Outcome (list JSValue) :=
  match value with
  | VArray elems => Return elems
  | _ =>
      if isKey value object then Return [value]
      else match value with
           | VString s => Return (map VString (stringToPath s))
           | _ => Throw TypeError
           end
  end.

(** [toKey(value)]. *)
Definition toKey (value : JSValue) : string :=
  match value with
  | VString s => s
  | _ => ToString value
  end.

(** The loop of [baseGet]:
    [while (object != null && index < length) object = object[toKey(path[index++])]].
    Every iteration advances [index], so [length] iterations are enough
    ([baseGet_loop_exit] below). *)
Fixpoint baseGet_loop (fuel : nat) (path : list JSValue) (object : JSValue) (index : nat)
  : JSValue * nat :=
  match fuel with
  | O => (object, index)
  | S fuel' =>
      if negb (isNullish object) && (index <? length path)%nat then
        baseGet_loop fuel' path
          (getProperty object (toKey (nth index path VUndefined))) (S index)
      else (object, index)
  end.

(** [baseGet(object, path)] once the path is cast. *)
Definition baseGet_walk (object : JSValue) (path : list JSValue) : JSValue :=
  let '(object', index) := baseGet_loop (length path) path object 0 in
  if negb (index =? 0)%nat && (index =? length path)%nat then object' else VUndefined.

Definition baseGet (object path : JSValue) : Outcome JSValue :=
  match castPath path object with
  | Return keys => Return (baseGet_walk object keys)
  | Throw e => Throw e
  end.

(** [get(object, path)], called without a default value. *)
Definition get (object path : JSValue) : Outcome JSValue :=
  if isNullish object then Return VUndefined else baseGet object path.

(** [toString(value)]. *)
Fixpoint toString (value : JSValue) : string :=
  match value with
  | VUndefined | VNull => EmptyString
  | VString s => s
  | VArray elems =>
      ToString (VArray (map (fun other =>
                               if isNullish other then other
                               else VString (toString other)) elems))
  | _ => ToString value
  end.

End Lodash.

(** ** The path resolver of [src/unnamed/part_000] *)

Module Reduced.

(** [isKey(value, object)]: as in [Lodash], without the array test. *)
Definition isKey (value object : JSValue) : bool :=
  match value with
  | VNumber _ | VBool _ | VUndefined | VNull => true
  | _ =>
      Lodash.reIsPlainProp_test (ToString value) ||
      negb (Lodash.reIsDeepProp_test (ToString value)) ||
      (negb (isNullish object) && hasProperty object (ToString value))
  end.

(** [string.replace(/[^.[\]]+/g, callback)]: the maximal runs of
    characters other than [.], [[] and []]. *)
Fixpoint propNames (skip : nat) (l : list ascii) : list string :=
  match l with
  | [] => []
  | _ :: t =>
      match skip with
      | S k => propNames k t
      | O =>
          match takeWhile (fun c => negb (Lodash.isSeparator c)) l with
          | (_ :: _) as run => text run :: propNames (pred (length run)) t
          | [] => propNames 0 t
          end
      end
  end.

Definition stringToPath (s : string) : list string := propNames 0 (chars s).

(** [castPath(value, object)]; [stringToPath] calls [replace] on its
    argument, which only a string has. *)
Definition castPath (value object : JSValue) : Outcome (list JSValue) :=
  if isKey value object then Return [value]
  else match value with
       | VString s => Return (map VString (stringToPath s))
       | _ => Throw TypeError
       end.

Definition toKey (value : JSValue) : string := Lodash.toKey value.

(** [get(object, path)]: the loop is the one of [Lodash.baseGet]. *)
Definition get (object path : JSValue) : Outcome JSValue :=
  match castPath path object with
  | Return keys => Return (Lodash.baseGet_walk object keys)
  | Throw e => Throw e
  end.

(** [toString(value)]. *)
Definition toString (value : JSValue) : string :=
  match value with
  | VUndefined | VNull => EmptyString
  | VString s => s
  | _ => ToString value
  end.

End Reduced.

(** ** The evaluator

    [checkConditions] calls back into its caller ([transformValueFn],
    [previousValueFn], [log]) and hands the reference to the callbacks, so
    it is written in a monad that threads the world the callbacks can
    change and propagates what is thrown. *)

(** The world outside the evaluator: the current contents of the object
    graph behind [reference], and the lines written so far to the sinks
    the callbacks and the console write to.  A callback that changes the
    reference is seen by every later read of it; a value the evaluator has
    already resolved is the value as it was read. *)
Record World : Type := mkWorld {
  reference : JSValue;
  output : list string
}.

Definition M (A : Type) : Type := World -> Outcome A * World.

Definition ret {A} (a : A) : M A := fun w => (Return a, w).

Definition throw {A} (e : JSError) : M A := fun w => (Throw e, w).

Definition bind {A B} (c : M A) (k : A -> M B) : M B :=
  fun w =>
    match c w with
    | (Return a, w') => k a w'
    | (Throw e, w') => (Throw e, w')
    end.

Definition lift {A} (o : Outcome A) : M A := fun w => (o, w).

(** The object graph [reference] points to, as it is now. *)
Definition readReference : M JSValue := fun w => (Return (reference w), w).

(** [console.log(line)]. *)
Definition consoleLog (line : string) : M unit :=
  fun w => (Return tt, mkWorld (reference w) (output w ++ [line])).

Declare Scope eval_scope.
Delimit Scope eval_scope with eval.
Notation "x <- c ;; k" := (bind c (fun x => k))
  (at level 61, c at next level, right associativity) : eval_scope.
Notation "' pat <- c ;; k" := (bind c (fun x => match x with pat => k end))
  (at level 61, pat pattern, c at next level, right associativity) : eval_scope.
Notation "c ;;; k" := (bind c (fun _ => k))
  (at level 61, right associativity) : eval_scope.

(** A property of [settings] that the evaluator may call: a function, or
    any other value ([undefined] when the property is missing). *)
Inductive Field (F : Type) : Type :=
| NotFunction (v : JSValue)
| Function (f : F).
Arguments NotFunction {F} v.
Arguments Function {F} f.

(** [transformValueFn(targetValue, reference, property)],
    [previousValueFn(reference, property)] and [log(debugStr)]: the
    [reference] argument is the object graph of the world. *)
Definition TransformFn : Type := JSValue -> JSValue -> M JSValue.
Definition PreviousFn : Type := JSValue -> M JSValue.
Definition LogFn : Type := string -> M unit.

(** The [settings] object; [rules] is [None] when [settings.rules] is not
    an array. *)
Record Settings : Type := mkSettings {
  rules : option (list Rule);
  satisfy : JSValue;
  transformValueFn : Field TransformFn;
  previousValueFn : Field PreviousFn;
  log : Field LogFn
}.

(** The variables the callback of [settings.rules.map] closes over. *)
Record Counters : Type := mkCounters {
  debugStr : string;
  requiredPassed : nat;
  normalPassed : nat
}.

Definition boolToString (b : bool) : string := if b then "true" else "false".

(** The first occurrence of [sep] in [s]: the text before it and the text
    after it. *)
Fixpoint cutAt (sep s : list ascii) : option (list ascii * list ascii) :=
  if isPrefix sep s then Some ([], skipn (length sep) s)
  else
    match s with
    | [] => None
    | c :: t =>
        match cutAt sep t with
        | Some (before, after) => Some (c :: before, after)
        | None => None
        end
    end.

(** [let [topPath, nestedPath] = property.split("[]")]: the first two
    pieces; the second is [None] ([undefined]) when there is one piece. *)
Definition splitWildcard (property : string) : string * option string :=
  match cutAt (chars "[]") (chars property) with
  | Some (top, rest) =>
      (text top,
       Some (match cutAt (chars "[]") rest with
             | Some (nested, _) => text nested
             | None => text rest
             end))
  | None => (property, None)
  end.

(** [s.substring(1)]. *)
Definition substring1 (s : string) : string :=
  match s with
  | EmptyString => EmptyString
  | String _ t => t
  end.

Module Evaluator.
Section Evaluator.

Local Open Scope eval_scope.

(** The resolver and the stringifier the evaluator is linked with, and
    whether the [crosses] case prints [typeof settings.previousValueFn] to
    the console (line 314 of [src/index.js] does, [src/unnamed/part_000]
    does not). *)
Variable get : JSValue -> JSValue -> Outcome JSValue.
Variable toString : JSValue -> string.
Variable printsTypeof : bool.

Variable settings : Settings.

(** [rule.property.includes("[]")]: strings and arrays have the method. *)
Definition propertyIncludesWildcard (property : JSValue) : Outcome bool :=
  match property with
  | VString s => Return (includes s "[]")
  | VArray elems => Return (arrayIncludes elems (VString "[]"))
  | _ => Throw TypeError
  end.

(** The items of [get(reference, topPath).map(...)]:
    [nestedPath ? get(item, nestedPath) : item]. *)
Fixpoint mapItems (nestedPath : string) (items : list JSValue) : Outcome (list JSValue) :=
  match items with
  | [] => Return []
  | item :: rest =>
      match (if truthy (VString nestedPath) then get item (VString nestedPath)
             else Return item) with
      | Return v =>
          match mapItems nestedPath rest with
          | Return vs => Return (v :: vs)
          | Throw e => Throw e
          end
      | Throw e => Throw e
      end
  end.

(** Lines 230-237: the value the rule is about. *)
Definition resolveValue (ref property : JSValue) : Outcome JSValue :=
  match get ref property with
  | Throw e => Throw e
  | Return value =>
      match propertyIncludesWildcard property with
      | Throw e => Throw e
      | Return false => Return value
      | Return true =>
          match property with
          | VString s =>
              match splitWildcard s with
              | (topPath, Some nestedPath) =>
                  match get ref (VString topPath) with
                  | Return (VArray items) =>
                      match mapItems (substring1 nestedPath) items with
                      | Return vs => Return (VArray vs)
                      | Throw e => Throw e
                      end
                  | Return _ => Throw TypeError
                  | Throw e => Throw e
                  end
              | (_, None) => Throw TypeError
              end
          | _ => Throw TypeError
          end
      end
  end.

(** Lines 239-246: the operand, through [transformValueFn] when it is a
    function. *)
Definition resolveTarget (rule : Rule) : M JSValue :=
  match transformValueFn settings with
  | Function f => f (rule_value rule) (rule_property rule)
  | NotFunction _ => ret (rule_value rule)
  end.

(** Lines 247-254: the boolean reading of a string operand against a
    boolean value; [None] is [null]. *)
Definition altComparison (value targetValue : JSValue) : option bool :=
  match value, targetValue with
  | VBool _, VString t =>
      let alt := if String.eqb (toLowerCase t) "false" then Some false else None in
      if String.eqb (toLowerCase t) "true" then Some true else alt
  | _, _ => None
  end.

Definition crossesMessage : string :=
  "Comparison " ++ String dquote "crosses" ++ String dquote
  " selected, but no function supplied to return previous value".

Definition fieldTypeof {F} (f : Field F) : string :=
  match f with
  | Function _ => "function"
  | NotFunction v => typeof v
  end.

(** The [crosses] case, lines 313-326. *)
Definition crosses (rule : Rule) (index : nat) (value targetValue : JSValue)
    (c : Counters) : M (bool * Counters) :=
  (if printsTypeof then consoleLog (fieldTypeof (previousValueFn settings)) else ret tt) ;;;
  match previousValueFn settings with
  | NotFunction _ => throw (Error crossesMessage None)
  | Function f =>
      lastValue <- f (rule_property rule) ;;
      let result := gt targetValue lastValue && lte targetValue value in
      ret (result,
           mkCounters
             ("(" ++ natToString index ++ ") " ++ ToString (rule_property rule) ++
              " was " ++ ToString lastValue ++ " and became " ++ ToString value ++
              ". crossed " ++ ToString targetValue ++ "? " ++ boolToString result ++ nl)
             (requiredPassed c) (normalPassed c))
  end.

(** The [switch (rule.op)] of lines 256-331: the result of the rule, and
    the closed-over variables as the case leaves them. *)
Definition switchOp (rule : Rule) (index : nat) (value targetValue : JSValue)
    (alt : option bool) (c : Counters) : M (bool * Counters) :=
  let pure (result : bool) : M (bool * Counters) := ret (result, c) in
  let unknown : M (bool * Counters) :=
    throw (Error ("Unknown comparison for rule (" ++ ToString (rule_op rule) ++ ")")
                 (Some rule)) in
  match rule_op rule with
  | VString op =>
      if String.eqb op "eq" then
        let result := looseEquals value targetValue in
        pure (match alt with
              | Some a => result || looseEquals value (VBool a)
              | None => result
              end)
      else if String.eqb op "ne" || String.eqb op "neq" then
        let result := negb (looseEquals value targetValue) in
        pure (match alt with
              | Some a => result && negb (looseEquals value (VBool a))
              | None => result
              end)
      else if String.eqb op "gt" then pure (gt value targetValue)
      else if String.eqb op "gte" then pure (gte value targetValue)
      else if String.eqb op "lt" then pure (lt value targetValue)
      else if String.eqb op "lte" then pure (lte value targetValue)
      else if String.eqb op "startsWith" then
        pure (startsWith (toString value) (ToString targetValue))
      else if String.eqb op "endsWith" then
        pure (endsWith (toString value) (ToString targetValue))
      else if String.eqb op "contains" then
        pure (includes (toString value) (ToString targetValue))
      else if String.eqb op "present" then pure (truthy value)
      else if String.eqb op "empty" || String.eqb op "absent" then
        pure (negb (truthy value))
      else if String.eqb op "all" then
        pure (match value with
              | VArray elems =>
                  negb (truthy (arrayFind (fun v => negb (strictEquals v targetValue)) elems))
              | _ => false
              end)
      else if String.eqb op "some" then
        pure (match value with
              | VArray elems => arrayIncludes elems targetValue
              | _ => false
              end)
      else if String.eqb op "none" then
        pure (match value with
              | VArray elems => negb (arrayIncludes elems targetValue)
              | VNull | VUndefined => true
              | _ => false
              end)
      else if String.eqb op "crosses" then crosses rule index value targetValue c
      else unknown
  | _ => unknown
  end.

(** [["absent", "present"].includes(rule.op)]. *)
Definition isUnary (op : JSValue) : bool :=
  arrayIncludes [VString "absent"; VString "present"] op.

(** Lines 332-339: the counters and the trace line of the rule. *)
Definition bookkeeping (rule : Rule) (index : nat) (value targetValue : JSValue)
    (result : bool) (c : Counters) : Counters :=
  let unary := isUnary (rule_op rule) in
  mkCounters
    (debugStr c ++
     "(" ++ natToString index ++ ") " ++ ToString (rule_property rule) ++
     " (" ++ ToString value ++ ") " ++ (if unary then "is" else EmptyString) ++
     " " ++ ToString (rule_op rule) ++ " " ++
     (if unary then EmptyString else ToString targetValue) ++
     "? " ++ boolToString result ++ nl)
    (if result && truthy (rule_required rule)
     then S (requiredPassed c) else requiredPassed c)
    (if result && negb (truthy (rule_required rule))
     then S (normalPassed c) else normalPassed c).

(** The callback of [settings.rules.map], lines 223-342. *)
Definition ruleCallback (rule : Rule) (index : nat) (c : Counters) : M (bool * Counters) :=
  if negb (truthy (rule_property rule)) then
    throw (Error ("Property not specified for rule " ++ natToString index) (Some rule))
  else
    ref <- readReference ;;
    value <- lift (resolveValue ref (rule_property rule)) ;;
    targetValue <- resolveTarget rule ;;
    ' (result, c') <- switchOp rule index value targetValue
                        (altComparison value targetValue) c ;;
    ret (result, bookkeeping rule index value targetValue result c').

(** [settings.rules.map(callback)], from [index] on. *)
Fixpoint mapRules (rs : list Rule) (index : nat) (c : Counters)
  : M (list bool * Counters) :=
  match rs with
  | [] => ret ([], c)
  | rule :: rest =>
      ' (result, c') <- ruleCallback rule index c ;;
      ' (results, c'') <- mapRules rest (S index) c' ;;
      ret (result :: results, c'')
  end.

(** Lines 344-348. *)
Definition requiredTotal (rs : list Rule) : nat :=
  fold_left (fun total rule => total + (if truthy (rule_required rule) then 1 else 0)) rs 0.

Definition normalTotal (rs : list Rule) : nat := length rs - requiredTotal rs.

(** Lines 351-358; [satisfy] is [settings.satisfy || "ANY"]. *)
Definition satisfyPolicy : JSValue :=
  if truthy (satisfy settings) then satisfy settings else VString "ANY".

Definition requiredSatisfied (rs : list Rule) (c : Counters) : bool :=
  (requiredTotal rs =? 0)%nat || (requiredTotal rs =? requiredPassed c)%nat.

Definition normalSatisfied (rs : list Rule) (c : Counters) : bool :=
  (normalTotal rs =? 0)%nat ||
  (if strictEquals satisfyPolicy (VString "ALL")
   then (normalPassed c =? normalTotal rs)%nat
   else (0 <? normalPassed c)%nat).

(** Lines 360-367: the trace with its summary lines. *)
Definition summary (rs : list Rule) (c : Counters) : string :=
  let outcome := normalSatisfied rs c && requiredSatisfied rs c in
  debugStr c ++
  (if (0 <? normalTotal rs)%nat then
     "Passed " ++ natToString (normalPassed c) ++ " / " ++ natToString (normalTotal rs) ++
     " (need " ++ ToString satisfyPolicy ++ ", " ++
     (if normalSatisfied rs c then "pass" else "fail") ++ ")" ++ nl
   else EmptyString) ++
  (if (0 <? requiredTotal rs)%nat then
     "Passed " ++ natToString (requiredPassed c) ++ " / " ++ natToString (requiredTotal rs) ++
     " required conditions (" ++ (if requiredSatisfied rs c then "pass" else "fail") ++
     ")" ++ nl
   else EmptyString) ++
  "Result: " ++ (if outcome then "PASS" else "FAIL").

(** Line 368: [if (settings.log) settings.log(debugStr)]. *)
Definition deliver (trace : string) : M unit :=
  match log settings with
  | Function f => f trace
  | NotFunction v => if truthy v then throw TypeError else ret tt
  end.

(** Lines 218-371: the evaluation of a rules array. *)
Definition evaluate (rs : list Rule) : M JSValue :=
  ' (_, c) <- mapRules rs 0 (mkCounters EmptyString 0 0) ;;
  deliver (summary rs c) ;;;
  ret (VBool (normalSatisfied rs c && requiredSatisfied rs c)).

End Evaluator.

(** [checkConditions(settings, reference)]; [settings] is [None] when the
    argument is [undefined] or [null], and the reference is the one of the
    world. *)
Definition checkConditions (get : JSValue -> JSValue -> Outcome JSValue)
    (toString : JSValue -> string) (printsTypeof : bool)
    (settings : option Settings) : M JSValue :=
  match settings with
  | None => ret VNull
  | Some s =>
      match rules s with
      | None => ret VNull
      | Some rs => evaluate get toString printsTypeof s rs
      end
  end.

End Evaluator.

(** [checkConditions] of [src/index.js]. *)
Definition checkConditions : option Settings -> M JSValue :=
  Evaluator.checkConditions Lodash.get Lodash.toString true.

(** [checkConditions] of [src/unnamed/part_000]. *)
Definition checkConditions_reduced : option Settings -> M JSValue :=
  Evaluator.checkConditions Reduced.get Reduced.toString false.

(** ** The specification's wording, to compare the code with *)

(** The key-by-key walk of section 4.1: at each key, a container that is
    [null] or [undefined] ends the walk with [undefined]; otherwise the
    container is indexed by the key. *)
Fixpoint walkKeys (container : JSValue) (keys : list string) : JSValue :=
  match keys with
  | [] => container
  | key :: rest =>
      if isNullish container then VUndefined
      else walkKeys (getProperty container key) rest
  end.

(** [resolve] as the specification states it: the walk over the
    normalized segments, each key that is not a string taken in its string
    form ([ToString], the form a template literal gives), and [undefined]
    for a path of length zero. *)
Definition resolve_spec (o : JSValue) (segments : list JSValue) : JSValue :=
  match segments with
  | [] => VUndefined
  | _ :: _ => walkKeys o (map ToString segments)
  end.

(** A rule belongs to the required subset when its [required] is truthy. *)
Definition isRequired (rule : Rule) : bool := truthy (rule_required rule).

(** The totals and pass counts of the aggregation, counted over the rules
    and their results. *)
Definition spec_requiredTotal (rs : list Rule) : nat :=
  length (filter isRequired rs).

Definition spec_normalTotal (rs : list Rule) : nat :=
  length rs - spec_requiredTotal rs.

Definition passedIn (required : bool) (pair : Rule * bool) : bool :=
  snd pair && Bool.eqb (isRequired (fst pair)) required.

Definition spec_requiredPassed (rs : list Rule) (results : list bool) : nat :=
  length (filter (passedIn true) (combine rs results)).

Definition spec_normalPassed (rs : list Rule) (results : list bool) : nat :=
  length (filter (passedIn false) (combine rs results)).

(** [requiredSatisfied], [normalSatisfied] and the outcome as section 4.2
    states them; [satisfy] is the property of [settings], unset or not. *)
Definition spec_requiredSatisfied (requiredTotal requiredPassed : nat) : bool :=
  (requiredTotal =? 0)%nat || (requiredPassed =? requiredTotal)%nat.

Definition spec_normalSatisfied (satisfy : JSValue) (normalTotal normalPassed : nat) : bool :=
  (normalTotal =? 0)%nat ||
  (if strictEquals satisfy (VString "ALL")
   then (normalPassed =? normalTotal)%nat
   else (0 <? normalPassed)%nat).

Definition spec_outcome (s : Settings) (rs : list Rule) (results : list bool) : bool :=
  spec_normalSatisfied (satisfy s) (spec_normalTotal rs) (spec_normalPassed rs results) &&
  spec_requiredSatisfied (spec_requiredTotal rs) (spec_requiredPassed rs results).

(** The operator vocabulary of the [switch]. *)
Definition vocabulary : list string :=
  ["eq"; "ne"; "neq"; "gt"; "gte"; "lt"; "lte"; "startsWith"; "endsWith";
   "contains"; "present"; "empty"; "absent"; "all"; "some"; "none"; "crosses"].

Definition recognized (op : JSValue) : bool :=
  match op with
  | VString name => existsb (String.eqb name) vocabulary
  | _ => false
  end.

(** A computation leaves the object graph behind [reference] as it found
    it. *)
Definition keepsReference {A} (c : M A) : Prop :=
  forall w, reference (snd (c w)) = reference w.

(** The callbacks of [settings] that are functions do not change the
    reference. *)
Definition callbacksKeepReference (s : Settings) : Prop :=
  (forall f, transformValueFn s = Function f -> forall targetValue property,
      keepsReference (f targetValue property)) /\
  (forall f, previousValueFn s = Function f -> forall property,
      keepsReference (f property)) /\
  (forall f, log s = Function f -> forall trace, keepsReference (f trace)).

(** Every entry of the cache is what the function computes for its key. *)
Definition cacheAgrees (func : string -> list string) (cache : Lodash.Cache) : Prop :=
  forall key result, Lodash.cacheGet key cache = Some result -> result = func key.

(** The counters before the first rule. *)
Definition noCounters : Counters := mkCounters EmptyString 0 0.

(** ** Test data *)

(** A [log] that records the trace in the output of the world. *)
Definition recordingLog : Field LogFn :=
  Function (fun trace w => (Return tt, mkWorld (reference w) (output w ++ [trace]))).

(** A [previousValueFn] that answers [n] for every property. *)
Definition previousWas (n : Z) : Field PreviousFn :=
  Function (fun _ w => (Return (VNumber n), w)).

Definition plainSettings (rs : list Rule) : Settings :=
  mkSettings (Some rs) VUndefined (NotFunction VUndefined) (NotFunction VUndefined)
    (NotFunction VUndefined).

Definition tracedSettings (rs : list Rule) (previous : Field PreviousFn) : Settings :=
  mkSettings (Some rs) VUndefined (NotFunction VUndefined) previous recordingLog.

Definition rule (property op : string) (value : JSValue) : Rule :=
  mkRule (VString property) (VString op) value VUndefined.

Definition worldOf (ref : JSValue) : World := mkWorld ref [].

Definition nested : JSValue :=
  VObject [("a", VArray [VObject [("b", VObject [("c", VNumber 3)])]]); ("n", VNull)].

(** An object holding an array of strings, to index with a number. *)
Definition letters : JSValue := VObject [("a", VArray [VString "x"; VString "y"])].

(** Section 8 of the specification: a required rule that passes, a normal
    rule that passes, a normal rule that fails. *)
Definition account : JSValue := VObject [("a", VNumber 1)].

Definition mixedRules : list Rule :=
  [mkRule (VString "a") (VString "eq") (VNumber 1) (VBool true);
   rule "a" "eq" (VNumber 1);
   rule "a" "eq" (VNumber 2)].

Definition mixedSettings (satisfy : JSValue) : Settings :=
  mkSettings (Some mixedRules) satisfy (NotFunction VUndefined) (NotFunction VUndefined)
    (NotFunction VUndefined).

(** Section 8: the previous value is 5, the current value 10, the
    threshold 7. *)
Definition gauge : JSValue := VObject [("level", VNumber 10)].

Definition crossingRule : Rule := rule "level" "crosses" (VNumber 7).




(** A rule whose op is outside the vocabulary, first and second in a
    rules array. *)
Definition bogusRule : Rule := rule "a" "bogus" (VNumber 1).

Definition bogusFirst : Settings := plainSettings [bogusRule].

Definition bogusSecond : Settings := plainSettings [rule "a" "eq" (VNumber 1); bogusRule].

(** A rule without a property, second in a rules array. *)
Definition unnamedRule : Rule := mkRule VUndefined (VString "eq") VNull VUndefined.

Definition unnamedSecond : Settings := plainSettings [rule "a" "eq" (VNumber 1); unnamedRule].

(** A wildcard rule over a collection the reference does not have. *)
Definition wildcardRule : Rule := rule "items[].name" "eq" (VString "x").

Definition emptyReference : JSValue := VObject [].

(** An [all] rule over an array holding [0], against the operand [1]. *)
Definition zeros : JSValue := VObject [("a", VArray [VNumber 0])].

Definition allOnes : Rule := rule "a" "all" (VNumber 1).

(** A rule followed by a [crosses] rule, traced. *)
Definition tracedRules : list Rule :=
  [rule "level" "eq" (VNumber 1); crossingRule].

Definition tracedCrossing : Settings := tracedSettings tracedRules (previousWas 5).

(** ** Path strings written from their segments *)

(** A character other than the dot and the brackets. *)
Definition plainChar (c : ascii) : bool := negb (Lodash.isSeparator c).

(** A name: a non-empty string of such characters. *)
Definition isName (n : string) : bool :=
  negb (String.eqb n EmptyString) && forallb plainChar (chars n).

(** A segment after the first name of a path: a dot and a name, or an
    index expression between brackets. *)
Inductive Segment : Type :=
| Dot (n : string)
| Index (e : string).

(** A character an unquoted index expression is made of here: neither a
    dot, a bracket, a quote nor white space. *)
Definition indexChar (c : ascii) : bool :=
  plainChar c && negb (Lodash.isQuote c) && negb (isSpace c).

Definition isIndexExpr (e : string) : bool :=
  negb (String.eqb e EmptyString) && forallb indexChar (chars e).

Definition segmentOk (seg : Segment) : bool :=
  match seg with
  | Dot n => isName n
  | Index e => isIndexExpr e
  end.

Definition segmentKey (seg : Segment) : string :=
  match seg with
  | Dot n => n
  | Index e => e
  end.

Definition renderSegment (seg : Segment) : string :=
  match seg with
  | Dot n => ("." ++ n)%string
  | Index e => ("[" ++ e ++ "]")%string
  end.

(** The segments written one after the other, as in [[0].b[1]]. *)
Fixpoint renderPath (segs : list Segment) : string :=
  match segs with
  | [] => EmptyString
  | seg :: rest => (renderSegment seg ++ renderPath rest)%string
  end.

(** ** The evaluator: what the further properties speak of *)

(** The same settings without a log sink. *)
Definition withoutLog (s : Settings) : Settings :=
  mkSettings (rules s) (satisfy s) (transformValueFn s) (previousValueFn s)
    (NotFunction VUndefined).

(** The line lines 337-339 append to the trace for a rule. *)
Definition traceLine (r : Rule) (index : nat) (value targetValue : JSValue)
    (result : bool) : string :=
  "(" ++ natToString index ++ ") " ++ ToString (rule_property r) ++
  " (" ++ ToString value ++ ") " ++
  (if Evaluator.isUnary (rule_op r) then "is" else EmptyString) ++
  " " ++ ToString (rule_op r) ++ " " ++
  (if Evaluator.isUnary (rule_op r) then EmptyString else ToString targetValue) ++
  "? " ++ boolToString result ++ nl.

(** Lines of text, one after the other. *)
Definition joinLines (lines : list string) : string :=
  fold_right String.append EmptyString lines.

(** A rule whose op is not [crosses]. *)
Definition notCrosses (r : Rule) : bool :=
  negb (strictEquals (rule_op r) (VString "crosses")).

(** A cache with [MAX_MEMOIZE_SIZE] entries. *)
Definition fullCache : Lodash.Cache :=
  map (fun n => (natToString n, [natToString n])) (seq 0 Lodash.MAX_MEMOIZE_SIZE).

(** ** Test data for the further properties *)

(** A required rule that fails before a normal rule that passes. *)
Definition requiredFails : list Rule :=
  [mkRule (VString "a") (VString "eq") (VNumber 2) (VBool true);
   rule "a" "eq" (VNumber 1)].

(** Two normal rules, the second of which passes. *)
Definition secondPasses : list Rule :=
  [rule "a" "eq" (VNumber 2); rule "a" "eq" (VNumber 1)].

(** Settings whose [log] is [true]. *)
Definition brokenLog : Settings :=
  mkSettings (Some secondPasses) VUndefined (NotFunction VUndefined) (NotFunction VUndefined)
    (NotFunction (VBool true)).

(** The function of [recordingLog]. *)
Definition record : LogFn :=
  fun trace w => (Return tt, mkWorld (reference w) (output w ++ [trace])).

(** A reference with a collection. *)
Definition catalog : JSValue :=
  VObject [("items", VArray [VObject [("x", VNumber 1)]; VObject [("x", VNumber 2)]])].

(** Case analysis on every test of a conditional. *)
Ltac split_ifs :=
  repeat match goal with
         | |- context [if ?b then _ else _] => destruct b
         | H : context [if ?b then _ else _] |- _ => destruct b
         end.

(** * Properties *)

(** ** The path resolver *)

Lemma skipn_nth_cons (A : Type) (d : A) (l : list A) (i : nat) :
  i < length l -> skipn i l = nth i l d :: skipn (S i) l.
Proof.
  revert i. induction l as [|x l IH]; intros i Hi; simpl in Hi.
  - lia.
  - destruct i as [|i]; [reflexivity|].
    simpl. apply IH. lia.
Qed.

(** The loop of [baseGet] computes the walk over the keys that remain,
    and stops with [index] short of the length exactly when the walk is
    cut by a [null] or [undefined] container. *)
Lemma baseGet_loop_walk (fuel : nat) :
  forall (path : list JSValue) (object : JSValue) (index : nat) object' index',
    length path <= index + fuel ->
    index <= length path ->
    Lodash.baseGet_loop fuel path object index = (object', index') ->
    index <= index' <= length path /\
    walkKeys object (map Lodash.toKey (skipn index path)) =
      (if (index' =? length path)%nat then object' else VUndefined).
Proof.
  induction fuel as [|fuel IH]; intros path object index object' index' Hfuel Hle Hrun;
    simpl in Hrun.
  - injection Hrun as <- <-.
    assert (index = length path) by lia. subst index.
    rewrite skipn_all, Nat.eqb_refl. simpl. split; [lia | reflexivity].
  - destruct (isNullish object) eqn:Hnull; simpl in Hrun.
    + injection Hrun as <- <-. split; [lia|].
      destruct (Nat.eqb_spec index (length path)) as [->|Hne].
      * rewrite skipn_all. reflexivity.
      * rewrite (skipn_nth_cons _ VUndefined) by lia. simpl. rewrite Hnull. reflexivity.
    + destruct (Nat.ltb_spec index (length path)) as [Hlt|Hge].
      * apply IH in Hrun; [| lia | lia].
        destruct Hrun as [Hbounds Hwalk]. split; [lia|].
        rewrite (skipn_nth_cons _ VUndefined) by lia. simpl. rewrite Hnull. exact Hwalk.
      * injection Hrun as <- <-.
        assert (index = length path) by lia. subst index.
        rewrite skipn_all, Nat.eqb_refl. simpl. split; [lia | reflexivity].
Qed.

(** The loop needs no more fuel than the length of the path: when it
    stops, its condition is false. *)
Lemma baseGet_loop_exit (fuel : nat) :
  forall (path : list JSValue) (object : JSValue) (index : nat) object' index',
    length path <= index + fuel ->
    Lodash.baseGet_loop fuel path object index = (object', index') ->
    negb (isNullish object') && (index' <? length path)%nat = false.
Proof.
  induction fuel as [|fuel IH]; intros path object index object' index' Hfuel Hrun;
    simpl in Hrun.
  - injection Hrun as <- <-.
    destruct (Nat.ltb_spec index (length path)); [lia | apply andb_false_r].
  - destruct (negb (isNullish object) && (index <? length path)%nat) eqn:Hcond.
    + eapply IH; [|exact Hrun]. lia.
    + injection Hrun as <- <-. exact Hcond.
Qed.

(** [toKey] gives every key its string form. *)
Lemma toKey_string_form (value : JSValue) : Lodash.toKey value = ToString value.
Proof. destruct value; reflexivity. Qed.

Lemma baseGet_walk_spec (object : JSValue) (path : list JSValue) :
  Lodash.baseGet_walk object path = resolve_spec object path.
Proof.
  unfold Lodash.baseGet_walk.
  destruct (Lodash.baseGet_loop (length path) path object 0) as [object' index'] eqn:Hrun.
  destruct (baseGet_loop_walk (length path) path object 0 object' index'
              ltac:(simpl; lia) ltac:(lia) Hrun) as [Hb Hw].
  simpl in Hw.
  destruct path as [|k path].
  - simpl in *. assert (index' = 0) by lia. subst. reflexivity.
  - unfold resolve_spec. rewrite <- (map_ext _ _ toKey_string_form), Hw.
    destruct (Nat.eqb_spec index' (length (k :: path))) as [->|_].
    + reflexivity.
    + rewrite andb_false_r. reflexivity.
Qed.

Lemma walkKeys_cut (pre : list string) :
  forall (container : JSValue) (rest : list string),
    isNullish (walkKeys container pre) = true -> rest <> [] ->
    walkKeys container (pre ++ rest) = VUndefined.
Proof.
  induction pre as [|k pre IH]; intros container rest Hn Hrest; simpl in *.
  - destruct rest as [|k rest]; [congruence|]. simpl. rewrite Hn. reflexivity.
  - destruct (isNullish container); [reflexivity|]. apply IH; assumption.
Qed.

Lemma resolve_spec_cut (o : JSValue) (pre post : list JSValue) (key : JSValue) :
  isNullish (walkKeys o (map ToString pre)) = true ->
  resolve_spec o (pre ++ key :: post) = VUndefined.
Proof.
  intros Hn. unfold resolve_spec.
  destruct (pre ++ key :: post) as [|k l] eqn:Hl.
  - reflexivity.
  - rewrite <- Hl, map_app. apply walkKeys_cut; [exact Hn | discriminate].
Qed.

Lemma lodash_get_spec (o p : JSValue) (segments : list JSValue) :
  Lodash.castPath p o = Return segments ->
  Lodash.get o p = Return (resolve_spec o segments).
Proof.
  intros Hcast. unfold Lodash.get, Lodash.baseGet. rewrite Hcast, baseGet_walk_spec.
  destruct (isNullish o) eqn:Hn; [|reflexivity].
  f_equal. unfold resolve_spec. destruct segments as [|k l]; [reflexivity|].
  simpl. rewrite Hn. reflexivity.
Qed.

Lemma reduced_get_spec (o p : JSValue) (segments : list JSValue) :
  Reduced.castPath p o = Return segments ->
  Reduced.get o p = Return (resolve_spec o segments).
Proof.
  intros Hcast. unfold Reduced.get. rewrite Hcast, baseGet_walk_spec. reflexivity.
Qed.

(** *** The cache of [stringToPath] *)

Lemma cacheGet_set (key k : string) (result : list string) (cache : Lodash.Cache) :
  Lodash.cacheGet k (Lodash.cacheSet key result cache) =
  match Lodash.cacheGet k cache with
  | Some r => Some r
  | None => if String.eqb key k then Some result else None
  end.
Proof.
  unfold Lodash.cacheSet. induction cache as [|[k' r'] cache IH]; simpl.
  - reflexivity.
  - destruct (String.eqb k' k); [reflexivity | exact IH].
Qed.

(** The memoized function returns what the function computes, keeps the
    cache in agreement with it, and keeps it within its capacity. *)
Lemma memoizeCapped_spec (func : string -> list string) (arg : string)
    (cache : Lodash.Cache) :
  cacheAgrees func cache ->
  length cache <= Lodash.MAX_MEMOIZE_SIZE ->
  fst (Lodash.memoizeCapped func arg cache) = func arg /\
  cacheAgrees func (snd (Lodash.memoizeCapped func arg cache)) /\
  length (snd (Lodash.memoizeCapped func arg cache)) <= Lodash.MAX_MEMOIZE_SIZE.
Proof.
  intros Hagree Hsize.
  unfold Lodash.memoizeCapped, Lodash.memoize, Lodash.cappedResolver.
  set (cache1 := if (length cache =? Lodash.MAX_MEMOIZE_SIZE)%nat then [] else cache).
  assert (Hagree1 : cacheAgrees func cache1).
  { subst cache1. destruct (length cache =? Lodash.MAX_MEMOIZE_SIZE)%nat; [|exact Hagree].
    intros key result H. discriminate H. }
  assert (Hsize1 : length cache1 < Lodash.MAX_MEMOIZE_SIZE).
  { subst cache1. destruct (Nat.eqb_spec (length cache) Lodash.MAX_MEMOIZE_SIZE).
    - unfold Lodash.MAX_MEMOIZE_SIZE. simpl. lia.
    - lia. }
  destruct (Lodash.cacheGet arg cache1) as [result|] eqn:Hget; simpl.
  - split; [exact (Hagree1 _ _ Hget)|]. split; [exact Hagree1 | lia].
  - split; [reflexivity|]. split.
    + intros key result. rewrite cacheGet_set.
      destruct (Lodash.cacheGet key cache1) as [r|] eqn:Hk.
      * intros H. injection H as <-. exact (Hagree1 _ _ Hk).
      * destruct (String.eqb_spec arg key) as [->|_]; [|discriminate].
        intros H. injection H as <-. reflexivity.
    + unfold Lodash.cacheSet. rewrite length_app. simpl. lia.
Qed.

Lemma stringToPath_cached_spec (s : string) (cache : Lodash.Cache) :
  cacheAgrees Lodash.stringToPath cache ->
  length cache <= Lodash.MAX_MEMOIZE_SIZE ->
  fst (Lodash.stringToPath_cached s cache) = Lodash.stringToPath s /\
  cacheAgrees Lodash.stringToPath (snd (Lodash.stringToPath_cached s cache)) /\
  length (snd (Lodash.stringToPath_cached s cache)) <= Lodash.MAX_MEMOIZE_SIZE.
Proof. apply memoizeCapped_spec. Qed.

(** A path given as a string is always cast, so resolving it returns. *)
Lemma lodash_castPath_string (o : JSValue) (p : string) :
  exists segments, Lodash.castPath (VString p) o = Return segments.
Proof.
  unfold Lodash.castPath. destruct (Lodash.isKey (VString p) o); eexists; reflexivity.
Qed.

Lemma reduced_castPath_string (o : JSValue) (p : string) :
  exists segments, Reduced.castPath (VString p) o = Return segments.
Proof.
  unfold Reduced.castPath. destruct (Reduced.isKey (VString p) o); eexists; reflexivity.
Qed.

(** C5. [get(o, p)], in [src/index.js] and in [src/unnamed/part_000],
    returns what the key-by-key walk of the normalized segments of [p]
    returns, each segment read in its string form: the value reached when
    every key is consumed, [undefined] when a container on the way is
    [null] or [undefined] before the keys are exhausted, and [undefined],
    not [o], for a path of length zero. *)
Theorem get_is_key_walk (o p : JSValue) (segments : list JSValue) :
  (Lodash.castPath p o = Return segments ->
   Lodash.get o p = Return (resolve_spec o segments) /\
   (segments = [] -> Lodash.get o p = Return VUndefined) /\
   (forall pre key post, segments = pre ++ key :: post ->
      isNullish (walkKeys o (map ToString pre)) = true ->
      Lodash.get o p = Return VUndefined)) /\
  (Reduced.castPath p o = Return segments ->
   Reduced.get o p = Return (resolve_spec o segments) /\
   (segments = [] -> Reduced.get o p = Return VUndefined) /\
   (forall pre key post, segments = pre ++ key :: post ->
      isNullish (walkKeys o (map ToString pre)) = true ->
      Reduced.get o p = Return VUndefined)).
Proof.
  split; intros Hcast.
  - rewrite (lodash_get_spec _ _ _ Hcast). split; [reflexivity|]. split.
    + intros ->. reflexivity.
    + intros pre key post -> Hn. rewrite resolve_spec_cut by exact Hn. reflexivity.
  - rewrite (reduced_get_spec _ _ _ Hcast). split; [reflexivity|]. split.
    + intros ->. reflexivity.
    + intros pre key post -> Hn. rewrite resolve_spec_cut by exact Hn. reflexivity.
Qed.

Lemma get_is_key_walk_witness :
  Lodash.castPath (VString "a[0].b.c") nested =
    Return [VString "a"; VString "0"; VString "b"; VString "c"] /\
  Lodash.get nested (VString "a[0].b.c") = Return (VNumber 3) /\
  Lodash.get nested (VString "n.x.y") = Return VUndefined /\
  Reduced.get nested (VString "a[0].b.c") = Return (VNumber 3) /\
  Lodash.get letters (VArray [VString "a"; VNumber 0]) = Return (VString "x") /\
  Reduced.get (VArray [VString "x"; VString "y"]) (VNumber 1) = Return (VString "y").
Proof.
  split; [reflexivity|].
  destruct (get_is_key_walk nested (VString "a[0].b.c")
              [VString "a"; VString "0"; VString "b"; VString "c"]) as [HL HR].
  destruct (get_is_key_walk nested (VString "n.x.y")
              [VString "n"; VString "x"; VString "y"]) as [HL' _].
  destruct (get_is_key_walk letters (VArray [VString "a"; VNumber 0])
              [VString "a"; VNumber 0]) as [HN _].
  destruct (get_is_key_walk (VArray [VString "x"; VString "y"]) (VNumber 1)
              [VNumber 1]) as [_ HM].
  split; [|split; [|split; [|split]]].
  - destruct (HL eq_refl) as [H _]. exact H.
  - destruct (HL' eq_refl) as (_ & _ & H).
    exact (H [VString "n"] (VString "x") [VString "y"] eq_refl eq_refl).
  - destruct (HR eq_refl) as [H _]. exact H.
  - destruct (HN eq_refl) as [H _]. exact H.
  - destruct (HM eq_refl) as [H _]. exact H.
Defined.

(** ** The monad *)

Lemma bind_returns {A B} (c : M A) (k : A -> M B) (w w' : World) (b : B) :
  bind c k w = (Return b, w') <->
  exists a w1, c w = (Return a, w1) /\ k a w1 = (Return b, w').
Proof.
  unfold bind. split.
  - destruct (c w) as [[a|e] w1]; intros H; [|discriminate].
    exists a, w1. split; [reflexivity | exact H].
  - intros (a & w1 & -> & H). exact H.
Qed.

Lemma bind_step {A B} (c : M A) (k : A -> M B) (w w1 : World) (a : A) :
  c w = (Return a, w1) -> bind c k w = k a w1.
Proof. unfold bind. intros ->. reflexivity. Qed.

Lemma bind_throws {A B} (c : M A) (k : A -> M B) (w w1 : World) (e : JSError) :
  c w = (Throw e, w1) -> bind c k w = (Throw e, w1).
Proof. unfold bind. intros ->. reflexivity. Qed.

Lemma keepsReference_ret {A} (a : A) : keepsReference (ret a).
Proof. intros w. reflexivity. Qed.

Lemma keepsReference_throw {A} (e : JSError) : keepsReference (@throw A e).
Proof. intros w. reflexivity. Qed.

Lemma keepsReference_lift {A} (o : Outcome A) : keepsReference (lift o).
Proof. intros w. reflexivity. Qed.

Lemma keepsReference_consoleLog (line : string) : keepsReference (consoleLog line).
Proof. intros w. reflexivity. Qed.

Lemma keepsReference_bind {A B} (c : M A) (k : A -> M B) :
  keepsReference c -> (forall a, keepsReference (k a)) -> keepsReference (bind c k).
Proof.
  intros Hc Hk w. unfold bind. specialize (Hc w).
  destruct (c w) as [[a|e] w1]; simpl in *.
  - rewrite Hk. exact Hc.
  - exact Hc.
Qed.

(** ** The evaluator, whatever resolver it is linked with *)

Section EvaluatorProperties.

Variable get : JSValue -> JSValue -> Outcome JSValue.
Variable toString : JSValue -> string.
Variable printsTypeof : bool.

Local Abbreviation switchOp := (Evaluator.switchOp toString printsTypeof).
Local Abbreviation ruleCallback := (Evaluator.ruleCallback get toString printsTypeof).
Local Abbreviation mapRules := (Evaluator.mapRules get toString printsTypeof).
Local Abbreviation evaluate := (Evaluator.evaluate get toString printsTypeof).
Local Abbreviation checkConditions := (Evaluator.checkConditions get toString printsTypeof).

Local Abbreviation crosses := (Evaluator.crosses printsTypeof).

Lemma crosses_counters (s : Settings) (rule : Rule) (index : nat)
    (value targetValue : JSValue) (c c' : Counters) (w w' : World) (result : bool) :
  crosses s rule index value targetValue c w = (Return (result, c'), w') ->
  requiredPassed c' = requiredPassed c /\ normalPassed c' = normalPassed c.
Proof.
  unfold Evaluator.crosses. intros H.
  apply bind_returns in H as (u & w1 & _ & H).
  destruct (previousValueFn s) as [v|f]; [discriminate|].
  apply bind_returns in H as (lastValue & w2 & _ & H).
  injection H as _ <- _. split; reflexivity.
Qed.

(** No case of the [switch] touches the pass counters. *)
Lemma switchOp_counters (s : Settings) (rule : Rule) (index : nat)
    (value targetValue : JSValue) (alt : option bool) (c c' : Counters)
    (w w' : World) (result : bool) :
  switchOp s rule index value targetValue alt c w = (Return (result, c'), w') ->
  requiredPassed c' = requiredPassed c /\ normalPassed c' = normalPassed c.
Proof.
  unfold Evaluator.switchOp.
  destruct (rule_op rule); try discriminate.
  intros H. split_ifs; try discriminate;
    try (injection H as _ <- _; split; reflexivity).
  eapply crosses_counters. exact H.
Qed.

(** What a rule that returns adds to the counters. *)
Lemma ruleCallback_counters (s : Settings) (rule : Rule) (index : nat)
    (c c' : Counters) (w w' : World) (result : bool) :
  ruleCallback s rule index c w = (Return (result, c'), w') ->
  requiredPassed c' = requiredPassed c + (if passedIn true (rule, result) then 1 else 0) /\
  normalPassed c' = normalPassed c + (if passedIn false (rule, result) then 1 else 0).
Proof.
  unfold Evaluator.ruleCallback, passedIn, isRequired. simpl.
  destruct (truthy (rule_property rule)); simpl; [|discriminate].
  intros H.
  apply bind_returns in H as (ref & w1 & _ & H).
  apply bind_returns in H as (value & w2 & _ & H).
  apply bind_returns in H as (targetValue & w3 & _ & H).
  apply bind_returns in H as ([result0 c0] & w4 & Hswitch & H).
  apply switchOp_counters in Hswitch as [Hr Hn].
  injection H as <- <- _. simpl. rewrite Hr, Hn.
  destruct result0, (truthy (rule_required rule)); simpl; split; lia.
Qed.

(** The counters after [map] are the counts of the passing rules of each
    subset, and there is one result per rule. *)
Lemma mapRules_counts (s : Settings) (rs : list Rule) :
  forall (index : nat) (c c' : Counters) (w w' : World) (results : list bool),
    mapRules s rs index c w = (Return (results, c'), w') ->
    length results = length rs /\
    requiredPassed c' = requiredPassed c + spec_requiredPassed rs results /\
    normalPassed c' = normalPassed c + spec_normalPassed rs results.
Proof.
  unfold spec_requiredPassed, spec_normalPassed.
  induction rs as [|rule rs IH]; intros index c c' w w' results H; simpl in H.
  - injection H as <- <- _. simpl. repeat split; lia.
  - apply bind_returns in H as ([result c1] & w1 & Hrule & H).
    apply bind_returns in H as ([results' c2] & w2 & Hrest & H).
    injection H as <- <- _.
    apply ruleCallback_counters in Hrule as [Hr Hn].
    apply IH in Hrest as (Hlen & Hr' & Hn').
    simpl. rewrite Hr', Hn', Hr, Hn, Hlen.
    destruct (passedIn true (rule, result)), (passedIn false (rule, result));
      simpl; repeat split; lia.
Qed.

Lemma requiredTotal_spec (rs : list Rule) :
  Evaluator.requiredTotal rs = spec_requiredTotal rs.
Proof.
  unfold Evaluator.requiredTotal, spec_requiredTotal.
  assert (H : forall n, fold_left
              (fun total r => total + (if truthy (rule_required r) then 1 else 0)) rs n
              = n + length (filter isRequired rs)).
  { induction rs as [|r rs IH]; intros n; simpl; [lia|].
    rewrite IH. unfold isRequired at 2.
    destruct (truthy (rule_required r)); simpl; lia. }
  apply H.
Qed.

(** [normalTotal] is a difference of naturals that never truncates. *)
Lemma requiredTotal_le (rs : list Rule) : Evaluator.requiredTotal rs <= length rs.
Proof.
  rewrite requiredTotal_spec. unfold spec_requiredTotal. apply filter_length_le.
Qed.

Lemma satisfyPolicy_all (s : Settings) :
  strictEquals (Evaluator.satisfyPolicy s) (VString "ALL") =
  strictEquals (satisfy s) (VString "ALL").
Proof.
  unfold Evaluator.satisfyPolicy.
  destruct (satisfy s) as [| |b|n|str|l|l]; simpl; try reflexivity.
  - destruct b; reflexivity.
  - destruct (n =? 0)%Z; reflexivity.
  - destruct str; reflexivity.
Qed.

(** The outcome the code computes from its counters is the outcome the
    specification computes from the results. *)
Lemma outcome_spec (s : Settings) (rs : list Rule) (results : list bool)
    (c : Counters) (w w' : World) :
  mapRules s rs 0 noCounters w = (Return (results, c), w') ->
  Evaluator.normalSatisfied s rs c && Evaluator.requiredSatisfied rs c =
  spec_outcome s rs results.
Proof.
  intros H. apply mapRules_counts in H as (_ & Hr & Hn). simpl in Hr, Hn.
  unfold Evaluator.normalSatisfied, Evaluator.requiredSatisfied, Evaluator.normalTotal,
    spec_outcome, spec_normalSatisfied, spec_requiredSatisfied, spec_normalTotal.
  rewrite requiredTotal_spec, satisfyPolicy_all, Hr, Hn.
  f_equal. f_equal. apply Nat.eqb_sym.
Qed.

(** When [checkConditions] returns, given a rules array. *)
Lemma checkConditions_returns (s : Settings) (rs : list Rule) (w : World) :
  rules s = Some rs ->
  forall v w2,
    checkConditions (Some s) w = (Return v, w2) <->
    exists results c w1,
      mapRules s rs 0 noCounters w = (Return (results, c), w1) /\
      Evaluator.deliver s (Evaluator.summary s rs c) w1 = (Return tt, w2) /\
      v = VBool (spec_outcome s rs results).
Proof.
  intros Hrules v w2. unfold Evaluator.checkConditions, Evaluator.evaluate. rewrite Hrules.
  fold noCounters. split.
  - intros H.
    apply bind_returns in H as ([results c] & w1 & Hmap & H).
    apply bind_returns in H as ([] & w1' & Hlog & H).
    injection H as <- <-.
    exists results, c, w1. rewrite (outcome_spec _ _ _ _ _ _ Hmap). auto.
  - intros (results & c & w1 & Hmap & Hlog & ->).
    rewrite (bind_step _ _ _ _ _ Hmap). cbv beta iota.
    rewrite (bind_step _ _ _ _ _ Hlog).
    rewrite (outcome_spec _ _ _ _ _ _ Hmap). reflexivity.
Qed.

(** C1. Given a rules array, [checkConditions] returns exactly when the
    rules evaluate without an error and the log sink (if any) returns, and
    then it returns [normalSatisfied && requiredSatisfied]:
    [requiredSatisfied] iff [requiredTotal == 0] or
    [requiredPassed == requiredTotal]; [normalSatisfied] iff
    [normalTotal == 0] or, when [satisfy] is [ALL],
    [normalPassed == normalTotal], otherwise (also when [satisfy] is unset)
    [normalPassed > 0].  An empty rules array yields [true] under any
    [satisfy]. *)
Theorem outcome_is_aggregation (s : Settings) (rs : list Rule) (w : World) :
  rules s = Some rs ->
  (forall v w2,
     checkConditions (Some s) w = (Return v, w2) <->
     exists results c w1,
       mapRules s rs 0 noCounters w = (Return (results, c), w1) /\
       Evaluator.deliver s (Evaluator.summary s rs c) w1 = (Return tt, w2) /\
       v = VBool (spec_outcome s rs results)) /\
  (rs = [] ->
   spec_outcome s rs [] = true /\
   forall w2, Evaluator.deliver s (Evaluator.summary s [] noCounters) w = (Return tt, w2) ->
              checkConditions (Some s) w = (Return (VBool true), w2)).
Proof.
  intros Hrules. split; [exact (checkConditions_returns s rs w Hrules)|].
  intros ->. split; [reflexivity|].
  intros w2 Hlog. apply (checkConditions_returns s [] w Hrules).
  exists [], noCounters, w. auto.
Qed.

(** C6. [checkConditions] returns [null] when [settings] is absent or
    [settings.rules] is not an array, and only then: every other value it
    returns is a boolean. *)
Theorem null_iff_no_rules (settings : option Settings) (w : World) :
  ((settings = None \/ exists s, settings = Some s /\ rules s = None) ->
   checkConditions settings w = (Return VNull, w)) /\
  (forall v w',
     checkConditions settings w = (Return v, w') ->
     (v = VNull <-> (settings = None \/ exists s, settings = Some s /\ rules s = None)) /\
     (v = VNull \/ exists b, v = VBool b)).
Proof.
  split.
  - intros [->|(s & -> & Hrules)]; simpl; [reflexivity|].
    rewrite Hrules. reflexivity.
  - intros v w' H. destruct settings as [s|].
    + destruct (rules s) as [rs|] eqn:Hrules.
      * apply (checkConditions_returns s rs w Hrules) in H.
        destruct H as (results & c & w1 & _ & _ & ->).
        split; [|right; eexists; reflexivity].
        split; [discriminate|].
        intros [Habs|(s' & Hs' & Hnone)]; [discriminate|].
        injection Hs' as <-. congruence.
      * simpl in H. rewrite Hrules in H. injection H as <- _.
        split; [|left; reflexivity].
        split; [|reflexivity]. intros _. right. exists s. auto.
    + simpl in H. injection H as <- _.
      split; [|left; reflexivity].
      split; [|reflexivity]. intros _. left. reflexivity.
Qed.

(** C10. On the same value and (transformed) operand, and with the same
    alternate boolean reading, the result of [ne], and of its alias [neq],
    is the negation of the result of [eq]. *)
Theorem ne_negates_eq (s : Settings) (rule_eq rule_ne : Rule) (index : nat)
    (value targetValue : JSValue) (alt : option bool) (c : Counters) (w : World) :
  rule_op rule_eq = VString "eq" ->
  rule_op rule_ne = VString "ne" \/ rule_op rule_ne = VString "neq" ->
  exists result,
    switchOp s rule_eq index value targetValue alt c w = (Return (result, c), w) /\
    switchOp s rule_ne index value targetValue alt c w = (Return (negb result, c), w).
Proof.
  intros Heq Hne. unfold Evaluator.switchOp. rewrite Heq.
  destruct Hne as [-> | ->]; simpl; unfold ret;
    destruct alt as [a|]; eexists; (split; [reflexivity|]);
    rewrite ?negb_orb; reflexivity.
Qed.





(** An operator outside the vocabulary falls to the [default] case. *)
Lemma switchOp_unknown (s : Settings) (rule : Rule) (index : nat)
    (value targetValue : JSValue) (alt : option bool) (c : Counters) (w : World) :
  recognized (rule_op rule) = false ->
  switchOp s rule index value targetValue alt c w =
  (Throw (Error ("Unknown comparison for rule (" ++ ToString (rule_op rule) ++ ")")
                (Some rule)), w).
Proof.
  intros Hrec. unfold Evaluator.switchOp, recognized in *.
  destruct (rule_op rule) as [| |b|n|name|l|l]; try reflexivity.
  simpl in Hrec.
  repeat (apply orb_false_iff in Hrec as [? Hrec]).
  repeat match goal with
         | H : String.eqb _ _ = false |- _ => rewrite H; clear H
         end.
  reflexivity.
Qed.

(** The first rule that throws ends [map], with what it threw. *)
Lemma mapRules_throws_at (s : Settings) (pre : list Rule) :
  forall (post : list Rule) (rule : Rule) (index : nat) (c c1 : Counters)
         (w w1 w2 : World) (results : list bool) (e : JSError),
    mapRules s pre index c w = (Return (results, c1), w1) ->
    ruleCallback s rule (index + length pre) c1 w1 = (Throw e, w2) ->
    mapRules s (pre ++ rule :: post) index c w = (Throw e, w2).
Proof.
  induction pre as [|r pre IH]; intros post rule index c c1 w w1 w2 results e Hpre Hrule;
    simpl in *.
  - injection Hpre as _ <- <-. rewrite Nat.add_0_r in Hrule.
    apply bind_throws. exact Hrule.
  - apply bind_returns in Hpre as ([b c'] & w' & Hr & Hpre).
    apply bind_returns in Hpre as ([bs c''] & w'' & Hrest & Hpre).
    injection Hpre as _ <- <-.
    rewrite (bind_step _ _ _ _ _ Hr). cbv beta iota.
    apply bind_throws. eapply IH; [exact Hrest|].
    rewrite <- Nat.add_succ_comm in Hrule. exact Hrule.
Qed.

Lemma checkConditions_throws_at (s : Settings) (pre post : list Rule) (rule : Rule)
    (c : Counters) (w w1 w2 : World) (results : list bool) (e : JSError) :
  rules s = Some (pre ++ rule :: post) ->
  mapRules s pre 0 noCounters w = (Return (results, c), w1) ->
  ruleCallback s rule (length pre) c w1 = (Throw e, w2) ->
  checkConditions (Some s) w = (Throw e, w2).
Proof.
  intros Hrules Hpre Hrule. unfold Evaluator.checkConditions, Evaluator.evaluate.
  rewrite Hrules. apply bind_throws. eapply mapRules_throws_at; eassumption.
Qed.

(** C7, amended. Let the rules before a rule evaluate without an error.
    If the property of the rule is not truthy, the evaluation throws an
    error whose message names the index of the rule and which carries the
    rule.  If its property is truthy, its value and operand are resolved
    and its op is outside the vocabulary, the evaluation throws an error
    whose message names the op, not the index, and which carries the
    rule. *)
Theorem authoring_errors (s : Settings) (pre post : list Rule) (rule : Rule)
    (c : Counters) (w w1 : World) (results : list bool) :
  rules s = Some (pre ++ rule :: post) ->
  mapRules s pre 0 noCounters w = (Return (results, c), w1) ->
  (truthy (rule_property rule) = false ->
   checkConditions (Some s) w =
   (Throw (Error ("Property not specified for rule " ++ natToString (length pre))
                 (Some rule)), w1)) /\
  (truthy (rule_property rule) = true ->
   recognized (rule_op rule) = false ->
   forall value targetValue w2,
     Evaluator.resolveValue get (reference w1) (rule_property rule) = Return value ->
     Evaluator.resolveTarget s rule w1 = (Return targetValue, w2) ->
     checkConditions (Some s) w =
     (Throw (Error ("Unknown comparison for rule (" ++ ToString (rule_op rule) ++ ")")
                   (Some rule)), w2)).
Proof.
  intros Hrules Hpre. split.
  - intros Hprop. eapply checkConditions_throws_at; [exact Hrules | exact Hpre |].
    unfold Evaluator.ruleCallback. rewrite Hprop. reflexivity.
  - intros Hprop Hrec value targetValue w2 Hvalue Htarget.
    eapply checkConditions_throws_at; [exact Hrules | exact Hpre |].
    unfold Evaluator.ruleCallback. rewrite Hprop. simpl.
    unfold bind at 1. unfold readReference.
    unfold bind at 1. unfold lift. rewrite Hvalue.
    unfold bind at 1. rewrite Htarget.
    apply bind_throws. apply switchOp_unknown. exact Hrec.
Qed.

(** *** The reference is only read *)

Lemma keepsReference_resolveTarget (s : Settings) (rule : Rule) :
  callbacksKeepReference s -> keepsReference (Evaluator.resolveTarget s rule).
Proof.
  intros (Ht & _ & _). unfold Evaluator.resolveTarget.
  destruct (transformValueFn s) as [v|f] eqn:Hf.
  - apply keepsReference_ret.
  - apply (Ht f eq_refl).
Qed.

Lemma keepsReference_crosses (s : Settings) (rule : Rule) (index : nat)
    (value targetValue : JSValue) (c : Counters) :
  callbacksKeepReference s ->
  keepsReference (crosses s rule index value targetValue c).
Proof.
  intros (_ & Hp & _). unfold Evaluator.crosses.
  apply keepsReference_bind.
  - destruct printsTypeof; [apply keepsReference_consoleLog | apply keepsReference_ret].
  - intros _. destruct (previousValueFn s) as [v|f] eqn:Hf.
    + apply keepsReference_throw.
    + apply keepsReference_bind; [apply (Hp f eq_refl)|].
      intros lastValue. apply keepsReference_ret.
Qed.

Lemma keepsReference_switchOp (s : Settings) (rule : Rule) (index : nat)
    (value targetValue : JSValue) (alt : option bool) (c : Counters) :
  callbacksKeepReference s ->
  keepsReference (switchOp s rule index value targetValue alt c).
Proof.
  intros Hs. unfold Evaluator.switchOp.
  destruct (rule_op rule); try apply keepsReference_throw.
  split_ifs;
    try apply keepsReference_ret; try apply keepsReference_throw.
  apply keepsReference_crosses. exact Hs.
Qed.

Lemma keepsReference_ruleCallback (s : Settings) (rule : Rule) (index : nat) (c : Counters) :
  callbacksKeepReference s -> keepsReference (ruleCallback s rule index c).
Proof.
  intros Hs. unfold Evaluator.ruleCallback.
  destruct (negb (truthy (rule_property rule))); [apply keepsReference_throw|].
  apply keepsReference_bind; [intros w; reflexivity|]. intros ref.
  apply keepsReference_bind; [apply keepsReference_lift|]. intros value.
  apply keepsReference_bind; [apply keepsReference_resolveTarget; exact Hs|].
  intros targetValue.
  apply keepsReference_bind; [apply keepsReference_switchOp; exact Hs|].
  intros [result c']. apply keepsReference_ret.
Qed.

Lemma keepsReference_mapRules (s : Settings) (rs : list Rule) :
  callbacksKeepReference s ->
  forall index c, keepsReference (mapRules s rs index c).
Proof.
  intros Hs. induction rs as [|rule rs IH]; intros index c; simpl.
  - apply keepsReference_ret.
  - apply keepsReference_bind; [apply keepsReference_ruleCallback; exact Hs|].
    intros [result c'].
    apply keepsReference_bind; [apply IH|].
    intros [results c'']. apply keepsReference_ret.
Qed.

Lemma keepsReference_deliver (s : Settings) (trace : string) :
  callbacksKeepReference s -> keepsReference (Evaluator.deliver s trace).
Proof.
  intros (_ & _ & Hl). unfold Evaluator.deliver.
  destruct (log s) as [v|f] eqn:Hf.
  - destruct (truthy v); [apply keepsReference_throw | apply keepsReference_ret].
  - apply (Hl f eq_refl).
Qed.

(** C9. When the callbacks of [settings] that are present leave the
    reference as it is, so does [checkConditions], whether it returns or
    throws: the evaluation only reads the reference. *)
Theorem reference_unchanged (settings : option Settings) (w : World) :
  (forall s, settings = Some s -> callbacksKeepReference s) ->
  reference (snd (checkConditions settings w)) = reference w.
Proof.
  intros Hs. destruct settings as [s|]; [|reflexivity].
  specialize (Hs s eq_refl). unfold Evaluator.checkConditions.
  destruct (rules s) as [rs|]; [|reflexivity].
  unfold Evaluator.evaluate. revert w.
  apply keepsReference_bind; [apply keepsReference_mapRules; exact Hs|].
  intros [results c].
  apply keepsReference_bind; [apply keepsReference_deliver; exact Hs|].
  intros _. apply keepsReference_ret.
Qed.

End EvaluatorProperties.

(** ** Where a rule can throw before its operator is applied *)

(** A property without the wildcard marker resolves, whatever the
    reference holds. *)
Lemma resolveValue_plain (ref : JSValue) (p : string) :
  includes p "[]" = false ->
  exists segments,
    Lodash.castPath (VString p) ref = Return segments /\
    Evaluator.resolveValue Lodash.get ref (VString p) = Return (resolve_spec ref segments).
Proof.
  intros Hplain. destruct (lodash_castPath_string ref p) as [segments Hcast].
  exists segments. split; [exact Hcast|].
  unfold Evaluator.resolveValue. rewrite (lodash_get_spec _ _ _ Hcast). simpl.
  rewrite Hplain. reflexivity.
Qed.

(** A wildcard property whose collection path resolves to anything but an
    array makes the rule throw a [TypeError]: [map] is called on what
    [get] returned. *)
Lemma resolveValue_wildcard_not_array
    (get : JSValue -> JSValue -> Outcome JSValue) (ref : JSValue) (p topPath : string)
    (nestedPath : option string) (value collection : JSValue) :
  includes p "[]" = true ->
  get ref (VString p) = Return value ->
  splitWildcard p = (topPath, nestedPath) ->
  get ref (VString topPath) = Return collection ->
  isArray collection = false ->
  Evaluator.resolveValue get ref (VString p) = Throw TypeError.
Proof.
  intros Hwild Hvalue Hsplit Hcoll Harr. unfold Evaluator.resolveValue.
  rewrite Hvalue. simpl. rewrite Hwild, Hsplit.
  destruct nestedPath as [nested|]; [|reflexivity].
  rewrite Hcoll. destruct collection; try reflexivity. discriminate Harr.
Qed.

(** What the [all] case computes: the value is an array and the first
    element that differs from the operand, if there is one, is falsy. *)
Lemma all_case (toString : JSValue -> string) (printsTypeof : bool) (s : Settings)
    (r : Rule) (index : nat) (value targetValue : JSValue) (alt : option bool)
    (c : Counters) (w : World) :
  rule_op r = VString "all" ->
  Evaluator.switchOp toString printsTypeof s r index value targetValue alt c w =
  (Return (match value with
           | VArray elems =>
               match find (fun v => negb (strictEquals v targetValue)) elems with
               | Some v => negb (truthy v)
               | None => true
               end
           | _ => false
           end, c), w).
Proof.
  intros Hop. unfold Evaluator.switchOp. rewrite Hop. simpl. unfold ret.
  destruct value; try reflexivity.
  unfold arrayFind. destruct (find _ elems); reflexivity.
Qed.

(** ** The two programs on the examples of the specification *)

Lemma outcome_is_aggregation_witness :
  checkConditions (Some (mixedSettings (VString "ANY"))) (worldOf account)
    = (Return (VBool true), worldOf account) /\
  checkConditions (Some (mixedSettings (VString "ALL"))) (worldOf account)
    = (Return (VBool false), worldOf account) /\
  checkConditions_reduced (Some (mixedSettings VUndefined)) (worldOf account)
    = (Return (VBool true), worldOf account).
Proof.
  pose (results := [true; true; false]).
  split; [|split].
  - destruct (outcome_is_aggregation Lodash.get Lodash.toString true
                (mixedSettings (VString "ANY")) mixedRules (worldOf account) eq_refl)
      as [H _].
    apply H. eexists results, _, _. split; [|split]; reflexivity.
  - destruct (outcome_is_aggregation Lodash.get Lodash.toString true
                (mixedSettings (VString "ALL")) mixedRules (worldOf account) eq_refl)
      as [H _].
    apply H. eexists results, _, _. split; [|split]; reflexivity.
  - destruct (outcome_is_aggregation Reduced.get Reduced.toString false
                (mixedSettings VUndefined) mixedRules (worldOf account) eq_refl)
      as [H _].
    apply H. eexists results, _, _. split; [|split]; reflexivity.
Defined.

Lemma null_iff_no_rules_witness :
  checkConditions None (worldOf account) = (Return VNull, worldOf account) /\
  checkConditions
    (Some (mkSettings None VUndefined (NotFunction VUndefined) (NotFunction VUndefined)
             (NotFunction VUndefined))) (worldOf account)
    = (Return VNull, worldOf account).
Proof.
  split.
  - apply (null_iff_no_rules Lodash.get Lodash.toString true None (worldOf account)).
    left. reflexivity.
  - apply (null_iff_no_rules Lodash.get Lodash.toString true).
    right. eexists. split; reflexivity.
Defined.

Lemma ne_negates_eq_witness :
  exists result,
    Evaluator.switchOp Lodash.toString true (plainSettings [])
      (rule "flag" "eq" (VString "TRUE")) 0 (VBool true) (VString "TRUE") (Some true)
      noCounters (worldOf account) = (Return (result, noCounters), worldOf account) /\
    Evaluator.switchOp Lodash.toString true (plainSettings [])
      (rule "flag" "neq" (VString "TRUE")) 0 (VBool true) (VString "TRUE") (Some true)
      noCounters (worldOf account) = (Return (negb result, noCounters), worldOf account).
Proof.
  apply (ne_negates_eq Lodash.toString true); [reflexivity | right; reflexivity].
Defined.


Lemma authoring_errors_witness :
  checkConditions (Some unnamedSecond) (worldOf account)
  = (Throw (Error "Property not specified for rule 1" (Some unnamedRule)),
     worldOf account) /\
  checkConditions (Some bogusSecond) (worldOf account)
  = (Throw (Error "Unknown comparison for rule (bogus)" (Some bogusRule)), worldOf account).
Proof.
  split.
  - apply (authoring_errors Lodash.get Lodash.toString true unnamedSecond
             [rule "a" "eq" (VNumber 1)] [] unnamedRule
             (mkCounters ("(0) a (1)  eq 1? true" ++ nl) 0 1)
             (worldOf account) (worldOf account) [true] eq_refl eq_refl).
    reflexivity.
  - apply (authoring_errors Lodash.get Lodash.toString true bogusSecond
             [rule "a" "eq" (VNumber 1)] [] bogusRule
             (mkCounters ("(0) a (1)  eq 1? true" ++ nl) 0 1)
             (worldOf account) (worldOf account) [true] eq_refl eq_refl)
      with (value := VNumber 1) (targetValue := VNumber 1);
      reflexivity.
Defined.

(** C7, as stated, fails: the error thrown for an op outside the
    vocabulary is the same whether the rule is first or second in the
    array, so no reading of the error gives the index of the rule. *)
Lemma unknown_op_error_omits_index :
  ~ (exists indexOf : JSError -> nat,
       forall (s : Settings) (pre post : list Rule) (r : Rule) (w w1 w2 : World)
              (results : list bool) (c : Counters) (e : JSError),
         rules s = Some (pre ++ r :: post) ->
         Evaluator.mapRules Lodash.get Lodash.toString true s pre 0 noCounters w
           = (Return (results, c), w1) ->
         truthy (rule_property r) = false \/ recognized (rule_op r) = false ->
         checkConditions (Some s) w = (Throw e, w2) ->
         indexOf e = length pre).
Proof.
  intros [indexOf H].
  pose (e := Error "Unknown comparison for rule (bogus)" (Some bogusRule)).
  assert (H0 : indexOf e = 0).
  { apply (H bogusFirst [] [] bogusRule (worldOf account) (worldOf account)
             (worldOf account) [] noCounters e); try reflexivity.
    right. reflexivity. }
  assert (H1 : indexOf e = 1).
  { apply (H bogusSecond [rule "a" "eq" (VNumber 1)] [] bogusRule (worldOf account)
             (worldOf account) (worldOf account) [true]
             (mkCounters ("(0) a (1)  eq 1? true" ++ nl) 0 1) e); try reflexivity.
    right. reflexivity. }
  congruence.
Qed.

Lemma recordingLog_keepsReference :
  callbacksKeepReference tracedCrossing.
Proof.
  repeat split.
  - intros f Hf. discriminate Hf.
  - intros f Hf. injection Hf as <-. intros property w. reflexivity.
  - intros f Hf. injection Hf as <-. intros trace w. reflexivity.
Defined.

Lemma reference_unchanged_witness :
  reference (snd (checkConditions (Some tracedCrossing) (worldOf gauge))) = gauge.
Proof.
  apply (reference_unchanged Lodash.get Lodash.toString true (Some tracedCrossing)
           (worldOf gauge)).
  intros s Hs. injection Hs as <-. exact recordingLog_keepsReference.
Defined.

(** C2: where the code departs from the claim. The collection of a
    wildcard property is missing in the reference: resolving the property
    itself and the collection path yields [undefined], as the claim says,
    but the evaluation then calls [map] on that [undefined], and
    [checkConditions] throws a [TypeError], in both programs. *)
Theorem wildcard_on_missing_collection_throws :
  Lodash.get emptyReference (VString "items[].name") = Return VUndefined /\
  Lodash.get emptyReference (VString "items") = Return VUndefined /\
  checkConditions (Some (plainSettings [wildcardRule])) (worldOf emptyReference)
    = (Throw TypeError, worldOf emptyReference) /\
  checkConditions_reduced (Some (plainSettings [wildcardRule])) (worldOf emptyReference)
    = (Throw TypeError, worldOf emptyReference).
Proof. repeat split; reflexivity. Qed.

(** C3: where the code departs from the claim. The array [[0]] has an
    element that is not strictly equal to the operand [1], yet the [all]
    rule passes: [find] returns that element, [0], and [!0] is [true]. *)
Theorem all_passes_on_falsy_mismatch :
  strictEquals (VNumber 0) (VNumber 1) = false /\
  arrayFind (fun v => negb (strictEquals v (VNumber 1))) [VNumber 0] = VNumber 0 /\
  checkConditions (Some (plainSettings [allOnes])) (worldOf zeros)
    = (Return (VBool true), worldOf zeros) /\
  checkConditions_reduced (Some (plainSettings [allOnes])) (worldOf zeros)
    = (Return (VBool true), worldOf zeros).
Proof. repeat split; reflexivity. Qed.

(** C8: where the code departs from the claim. Two rules evaluate without
    an error, the second with op [crosses]; the trace delivered to [log]
    has the two lines of the second rule and the summary, and no line of
    the first rule: the [crosses] case assigns the trace instead of
    appending to it. *)
Theorem crosses_replaces_trace :
  checkConditions (Some tracedCrossing) (worldOf gauge)
    = (Return (VBool true),
       mkWorld gauge
         ["function";
          ("(1) level was 5 and became 10. crossed 7? true" ++ nl ++
           "(1) level (10)  crosses 7? true" ++ nl ++
           "Passed 1 / 2 (need ANY, pass)" ++ nl ++
           "Result: PASS")%string]) /\
  forallb (fun trace => negb (includes trace "(0) level"))
    (output (snd (checkConditions (Some tracedCrossing) (worldOf gauge)))) = true.
Proof. split; reflexivity. Qed.

(** * Further properties of the code *)

(** ** Strings *)

Lemma chars_append (a b : string) : chars (a ++ b) = chars a ++ chars b.
Proof.
  unfold chars. induction a as [|c a IH]; simpl; [reflexivity|].
  rewrite IH. reflexivity.
Qed.

Lemma text_chars (s : string) : text (chars s) = s.
Proof. apply string_of_list_ascii_of_string. Qed.

Lemma chars_text (l : list ascii) : chars (text l) = l.
Proof. apply list_ascii_of_string_of_list_ascii. Qed.

Lemma plainChar_not_separator (c : ascii) :
  plainChar c = true ->
  Ascii.eqb c "."%char = false /\ Ascii.eqb c "["%char = false /\
  Ascii.eqb c "]"%char = false.
Proof.
  unfold plainChar, Lodash.isSeparator, Lodash.isBracket.
  destruct (Ascii.eqb c "."), (Ascii.eqb c "["), (Ascii.eqb c "]"); simpl;
    intros H; try discriminate; auto.
Qed.

(** ** Runs of plain characters *)

(** A run of plain characters is taken whole when a separator or the end
    of the string follows it. *)
Lemma takeWhile_run (run rest : list ascii) :
  forallb plainChar run = true ->
  match rest with [] => True | c :: _ => plainChar c = false end ->
  takeWhile (fun c => negb (Lodash.isSeparator c)) (run ++ rest) = run.
Proof.
  intros Hrun Hrest. induction run as [|c run IH]; simpl in *.
  - destruct rest as [|d rest]; [reflexivity|].
    simpl. unfold plainChar in Hrest. rewrite Hrest. reflexivity.
  - apply andb_prop in Hrun as [Hc Hrun]. unfold plainChar in Hc. rewrite Hc.
    rewrite IH by exact Hrun. reflexivity.
Qed.

Lemma lodash_propNames_skip (a rest : list ascii) :
  Lodash.propNames (length a) (a ++ rest) = Lodash.propNames 0 rest.
Proof. induction a as [|c a IH]; simpl; [reflexivity | exact IH]. Qed.

Lemma reduced_propNames_skip (a rest : list ascii) :
  Reduced.propNames (length a) (a ++ rest) = Reduced.propNames 0 rest.
Proof. induction a as [|c a IH]; simpl; [reflexivity | exact IH]. Qed.

Lemma lodash_matchPropName_run (c : ascii) (run rest : list ascii) :
  forallb plainChar (c :: run) = true ->
  match rest with [] => True | d :: _ => plainChar d = false end ->
  Lodash.matchPropName ((c :: run) ++ rest) = Some (text (c :: run), length (c :: run)).
Proof.
  intros Hrun Hrest. unfold Lodash.matchPropName.
  rewrite (takeWhile_run (c :: run) rest Hrun Hrest). reflexivity.
Qed.

Lemma lodash_propNames_run (c : ascii) (run rest : list ascii) :
  forallb plainChar (c :: run) = true ->
  match rest with [] => True | d :: _ => plainChar d = false end ->
  Lodash.propNames 0 ((c :: run) ++ rest) = text (c :: run) :: Lodash.propNames 0 rest.
Proof.
  intros Hrun Hrest.
  change (Lodash.propNames 0 ((c :: run) ++ rest)) with
    (match Lodash.matchPropName ((c :: run) ++ rest) with
     | Some (key, len) => key :: Lodash.propNames (pred len) (run ++ rest)
     | None => Lodash.propNames 0 (run ++ rest)
     end).
  rewrite (lodash_matchPropName_run c run rest Hrun Hrest).
  simpl pred. rewrite lodash_propNames_skip. reflexivity.
Qed.

Lemma reduced_propNames_run (c : ascii) (run rest : list ascii) :
  forallb plainChar (c :: run) = true ->
  match rest with [] => True | d :: _ => plainChar d = false end ->
  Reduced.propNames 0 ((c :: run) ++ rest) = text (c :: run) :: Reduced.propNames 0 rest.
Proof.
  intros Hrun Hrest.
  change (Reduced.propNames 0 ((c :: run) ++ rest)) with
    (match takeWhile (fun d => negb (Lodash.isSeparator d)) ((c :: run) ++ rest) with
     | (_ :: _) as r => text r :: Reduced.propNames (pred (length r)) (run ++ rest)
     | [] => Reduced.propNames 0 (run ++ rest)
     end).
  rewrite (takeWhile_run (c :: run) rest Hrun Hrest).
  simpl pred. rewrite reduced_propNames_skip. reflexivity.
Qed.

(** A dot before a name matches nothing: the search moves on to the name. *)
Lemma lodash_propNames_dot (x : ascii) (t : list ascii) :
  plainChar x = true ->
  Lodash.propNames 0 ("."%char :: x :: t) = Lodash.propNames 0 (x :: t).
Proof.
  intros Hx. destruct (plainChar_not_separator x Hx) as (Hdot & Hopen & Hclose).
  change (Lodash.propNames 0 ("."%char :: x :: t)) with
    (match Lodash.matchPropName ("."%char :: x :: t) with
     | Some (key, len) => key :: Lodash.propNames (pred len) (x :: t)
     | None => Lodash.propNames 0 (x :: t)
     end).
  assert (Hnone : Lodash.matchPropName ("."%char :: x :: t) = None).
  { unfold Lodash.matchPropName, Lodash.afterGap. simpl. rewrite Hdot, Hopen. reflexivity. }
  rewrite Hnone. reflexivity.
Qed.

Lemma reduced_propNames_dot (l : list ascii) :
  Reduced.propNames 0 ("."%char :: l) = Reduced.propNames 0 l.
Proof. reflexivity. Qed.

Lemma isName_chars (n : string) :
  isName n = true ->
  exists c run, chars n = c :: run /\ forallb plainChar (c :: run) = true.
Proof.
  unfold isName. intros H. apply andb_prop in H as [Hne Hall].
  destruct n as [|c n]; [discriminate|].
  exists c, (chars n). split; [reflexivity | exact Hall].
Qed.

(** ** [get] on strings *)

Lemma walkKeys_strings (o : JSValue) (names : list string) :
  walkKeys o (map ToString (map VString names)) = walkKeys o names.
Proof. rewrite map_map. simpl. rewrite map_id. reflexivity. Qed.

(** A string that [isKey] takes for a key resolves to the property of
    that name. *)
Lemma lodash_get_key (o : JSValue) (p : string) :
  Lodash.isKey (VString p) o = true ->
  Lodash.get o (VString p) = Return (if isNullish o then VUndefined else getProperty o p).
Proof.
  intros Hkey.
  assert (Hcast : Lodash.castPath (VString p) o = Return [VString p]).
  { unfold Lodash.castPath. rewrite Hkey. reflexivity. }
  rewrite (lodash_get_spec _ _ _ Hcast). reflexivity.
Qed.

Lemma reduced_get_key (o : JSValue) (p : string) :
  Reduced.isKey (VString p) o = true ->
  Reduced.get o (VString p) = Return (if isNullish o then VUndefined else getProperty o p).
Proof.
  intros Hkey.
  assert (Hcast : Reduced.castPath (VString p) o = Return [VString p]).
  { unfold Reduced.castPath. rewrite Hkey. reflexivity. }
  rewrite (reduced_get_spec _ _ _ Hcast). reflexivity.
Qed.

Lemma reIsDeepProp_chars_dot (a b : list ascii) :
  Lodash.reIsDeepProp_chars (a ++ "."%char :: b) = true.
Proof.
  induction a as [|c a IH]; simpl.
  - reflexivity.
  - rewrite IH. apply orb_true_r.
Qed.

Lemma reIsPlainProp_dot (a b : list ascii) :
  forallb isWordChar (a ++ "."%char :: b) = false.
Proof.
  rewrite forallb_app. simpl. change (isWordChar ".") with false.
  apply andb_false_r.
Qed.

Lemma reIsDeepProp_chars_plain (l : list ascii) :
  forallb (fun c => negb (Ascii.eqb c "."%char) && negb (Ascii.eqb c "["%char)) l = true ->
  Lodash.reIsDeepProp_chars l = false.
Proof.
  induction l as [|c l IH]; simpl; [reflexivity|].
  intros H. apply andb_prop in H as [Hc Hl]. apply andb_prop in Hc as [Hdot Hopen].
  apply negb_true_iff in Hdot, Hopen. rewrite Hdot, Hopen, (IH Hl). reflexivity.
Qed.

(** X3. A string without a dot and without an opening bracket is one key,
    whatever else it holds (the empty string too): both resolvers index
    the object once with the whole string and return [o[p]], as
    [getProperty] reads it, with no walk; they return [undefined] when the
    object is [null] or [undefined]. *)
Theorem get_plain_string_is_lookup (o : JSValue) (p : string) :
  forallb (fun c => negb (Ascii.eqb c "."%char) && negb (Ascii.eqb c "["%char)) (chars p)
    = true ->
  Lodash.get o (VString p) = Return (if isNullish o then VUndefined else getProperty o p) /\
  Reduced.get o (VString p) = Return (if isNullish o then VUndefined else getProperty o p).
Proof.
  intros Hplain. apply reIsDeepProp_chars_plain in Hplain. split.
  - apply lodash_get_key. unfold Lodash.isKey, Lodash.reIsDeepProp_test.
    cbn [isArray ToString]. rewrite Hplain. simpl. rewrite orb_true_r. reflexivity.
  - apply reduced_get_key. unfold Reduced.isKey, Lodash.reIsDeepProp_test.
    cbn [ToString]. rewrite Hplain. simpl. rewrite orb_true_r. reflexivity.
Qed.

Lemma get_plain_string_is_lookup_witness :
  Lodash.get (VObject [("first name", VString "Ada")]) (VString "first name")
    = Return (VString "Ada") /\
  Reduced.get (VObject [("first name", VString "Ada")]) (VString "first name")
    = Return (VString "Ada").
Proof.
  apply (get_plain_string_is_lookup (VObject [("first name", VString "Ada")]) "first name").
  reflexivity.
Defined.

(** X4. A property whose name has path syntax wins over the path: when
    the object has a property named by the whole path string, both
    resolvers return that property and do not walk. *)
Theorem get_prefers_direct_key (o : JSValue) (p : string) :
  hasProperty o p = true ->
  Lodash.get o (VString p) = Return (getProperty o p) /\
  Reduced.get o (VString p) = Return (getProperty o p).
Proof.
  intros Hown.
  assert (Hnn : isNullish o = false).
  { destruct o; try reflexivity; discriminate Hown. }
  split.
  - rewrite lodash_get_key; [rewrite Hnn; reflexivity|].
    unfold Lodash.isKey. cbn [isArray ToString]. rewrite Hnn, Hown. apply orb_true_r.
  - rewrite reduced_get_key; [rewrite Hnn; reflexivity|].
    unfold Reduced.isKey. cbn [ToString]. rewrite Hnn, Hown. apply orb_true_r.
Qed.

Lemma get_prefers_direct_key_witness :
  Lodash.get (VObject [("a.b", VNumber 1); ("a", VObject [("b", VNumber 2)])]) (VString "a.b")
    = Return (VNumber 1) /\
  Reduced.get (VObject [("a.b", VNumber 1); ("a", VObject [("b", VNumber 2)])]) (VString "a.b")
    = Return (VNumber 1).
Proof.
  apply (get_prefers_direct_key
           (VObject [("a.b", VNumber 1); ("a", VObject [("b", VNumber 2)])]) "a.b").
  reflexivity.
Defined.



(** ** [toString] *)

Lemma JSValue_nested_ind (P : JSValue -> Prop) :
  P VUndefined -> P VNull -> (forall b, P (VBool b)) -> (forall n, P (VNumber n)) ->
  (forall s, P (VString s)) ->
  (forall elems, Forall P elems -> P (VArray elems)) ->
  (forall fields, P (VObject fields)) ->
  forall v, P v.
Proof.
  intros Hu Hn Hb Hz Hs Ha Ho.
  fix IH 1.
  intros [| |b|n|s|elems|fields];
    [exact Hu | exact Hn | apply Hb | apply Hz | apply Hs | | apply Ho].
  apply Ha. induction elems as [|x elems IHl]; constructor; [apply IH | exact IHl].
Qed.

Lemma ToString_array_cons (x : JSValue) (rest : list JSValue) :
  ToString (VArray (x :: rest)) =
  ((if isNullish x then EmptyString else ToString x) ++
   match rest with
   | [] => EmptyString
   | _ :: _ => "," ++ ToString (VArray rest)
   end)%string.
Proof. destruct x; reflexivity. Qed.

(** X6. [toString] of [src/index.js], with its recursive case for arrays,
    and [toString] of [src/unnamed/part_000], without it, return the same
    string for every value: the empty string for [null] and [undefined],
    and otherwise the string a template literal gives. *)
Theorem toString_agree (v : JSValue) :
  Lodash.toString v = Reduced.toString v /\
  Lodash.toString v = if isNullish v then EmptyString else ToString v.
Proof.
  assert (H : forall v, Lodash.toString v = if isNullish v then EmptyString else ToString v).
  { clear v. induction v as [| |b|n|s|elems IH|fields] using JSValue_nested_ind;
      try reflexivity.
    cbn [Lodash.toString isNullish].
    induction elems as [|x elems IHl]; [reflexivity|].
    inversion IH as [|? ? Hx Hrest]; subst.
    cbn [map]. rewrite !ToString_array_cons. cbv beta.
    f_equal.
    - destruct x as [| |b|n|s|l|l]; try reflexivity.
      change (Lodash.toString (VArray l) = ToString (VArray l)). exact Hx.
    - destruct elems as [|y elems]; [reflexivity|].
      cbn [map]. f_equal. apply IHl. exact Hrest. }
  split; [|apply H].
  rewrite H. destruct v; reflexivity.
Qed.

(** ** The cache of [stringToPath], continued *)

(** X7. The memoized [stringToPath] returns what [stringToPath] computes,
    whatever the calls before it: the cache stays in agreement with the
    function and never holds more than [MAX_MEMOIZE_SIZE] entries. *)
Theorem stringToPath_cache_transparent (s : string) (cache : Lodash.Cache) :
  cacheAgrees Lodash.stringToPath cache ->
  length cache <= Lodash.MAX_MEMOIZE_SIZE ->
  fst (Lodash.stringToPath_cached s cache) = Lodash.stringToPath s /\
  cacheAgrees Lodash.stringToPath (snd (Lodash.stringToPath_cached s cache)) /\
  length (snd (Lodash.stringToPath_cached s cache)) <= Lodash.MAX_MEMOIZE_SIZE.
Proof. apply memoizeCapped_spec. Qed.

Lemma cacheAgrees_nil (func : string -> list string) : cacheAgrees func [].
Proof. intros key result H. discriminate H. Defined.

Lemma stringToPath_cache_transparent_witness :
  fst (Lodash.stringToPath_cached "a[0].b" []) = ["a"; "0"; "b"] /\
  cacheAgrees Lodash.stringToPath (snd (Lodash.stringToPath_cached "a[0].b" [])) /\
  length (snd (Lodash.stringToPath_cached "a[0].b" [])) <= Lodash.MAX_MEMOIZE_SIZE.
Proof.
  apply (stringToPath_cache_transparent "a[0].b" [] (cacheAgrees_nil _)).
  unfold Lodash.MAX_MEMOIZE_SIZE. simpl. lia.
Defined.

(** X8. What a call does to the cache.  A call for a key the cache holds
    leaves the cache as it is, while the cache is short of
    [MAX_MEMOIZE_SIZE] entries; a call for a new key adds one entry at the
    end; and a call that finds the cache with exactly [MAX_MEMOIZE_SIZE]
    entries empties it first, so the cache then holds that call's entry
    alone. *)
Theorem memoizeCapped_cache (func : string -> list string) (arg : string)
    (cache : Lodash.Cache) :
  (length cache <> Lodash.MAX_MEMOIZE_SIZE ->
   forall result, Lodash.cacheGet arg cache = Some result ->
   Lodash.memoizeCapped func arg cache = (result, cache)) /\
  (length cache <> Lodash.MAX_MEMOIZE_SIZE ->
   Lodash.cacheGet arg cache = None ->
   Lodash.memoizeCapped func arg cache = (func arg, cache ++ [(arg, func arg)])) /\
  (length cache = Lodash.MAX_MEMOIZE_SIZE ->
   Lodash.memoizeCapped func arg cache = (func arg, [(arg, func arg)])).
Proof.
  unfold Lodash.memoizeCapped, Lodash.memoize, Lodash.cappedResolver, Lodash.cacheSet.
  repeat split.
  - intros Hsize result Hget.
    apply Nat.eqb_neq in Hsize. rewrite Hsize, Hget. reflexivity.
  - intros Hsize Hget.
    apply Nat.eqb_neq in Hsize. rewrite Hsize, Hget. reflexivity.
  - intros Hsize. apply Nat.eqb_eq in Hsize. rewrite Hsize. reflexivity.
Qed.

Lemma memoizeCapped_cache_witness :
  Lodash.memoizeCapped Lodash.stringToPath "a.b" fullCache
    = (["a"; "b"], [("a.b", ["a"; "b"])]) /\
  Lodash.memoizeCapped Lodash.stringToPath "a.b" [("a.b", ["a"; "b"])]
    = (["a"; "b"], [("a.b", ["a"; "b"])]) /\
  Lodash.memoizeCapped Lodash.stringToPath "c" [("a.b", ["a"; "b"])]
    = (["c"], [("a.b", ["a"; "b"]); ("c", ["c"])]).
Proof.
  destruct (memoizeCapped_cache Lodash.stringToPath "a.b" fullCache) as (_ & _ & Hfull).
  destruct (memoizeCapped_cache Lodash.stringToPath "a.b" [("a.b", ["a"; "b"])])
    as (Hhit & _ & _).
  destruct (memoizeCapped_cache Lodash.stringToPath "c" [("a.b", ["a"; "b"])])
    as (_ & Hmiss & _).
  split; [|split].
  - apply Hfull. reflexivity.
  - apply Hhit; [discriminate | reflexivity].
  - apply Hmiss; [discriminate | reflexivity].
Defined.

(** ** The keys of the reduced [stringToPath] *)

Lemma takeWhile_all {A} (p : A -> bool) (l : list A) :
  forallb p (takeWhile p l) = true.
Proof.
  induction l as [|x l IH]; simpl; [reflexivity|].
  destruct (p x) eqn:Hp; simpl; [rewrite Hp; exact IH | reflexivity].
Qed.

Lemma reduced_propNames_names (l : list ascii) :
  forall skip, Forall (fun key => isName key = true) (Reduced.propNames skip l).
Proof.
  induction l as [|c l IH]; intros skip; simpl; [constructor|].
  destruct skip as [|k]; [|apply IH].
  destruct (negb (Lodash.isSeparator c)) eqn:Hc; [|apply IH].
  constructor; [|apply IH].
  unfold isName. simpl. rewrite chars_text. simpl.
  unfold plainChar at 1. rewrite Hc. apply (takeWhile_all plainChar).
Qed.

(** X9. [stringToPath] of [src/unnamed/part_000] only returns names: no
    key it returns is empty, and none holds a dot or a bracket.  (The one
    of [src/index.js] returns empty keys, for consecutive separators.) *)
Theorem reduced_stringToPath_names (s : string) :
  Forall (fun key => isName key = true) (Reduced.stringToPath s) /\
  Lodash.stringToPath "a..b" = ["a"; EmptyString; "b"] /\
  Reduced.stringToPath "a..b" = ["a"; "b"].
Proof.
  split; [apply reduced_propNames_names | split; reflexivity].
Qed.

(** ** Counting the rules that pass *)

Lemma spec_counts_cons (r : Rule) (rs : list Rule) (b : bool) (bs : list bool) :
  spec_requiredTotal (r :: rs) = (if isRequired r then 1 else 0) + spec_requiredTotal rs /\
  spec_requiredPassed (r :: rs) (b :: bs) =
    (if b && isRequired r then 1 else 0) + spec_requiredPassed rs bs /\
  spec_normalPassed (r :: rs) (b :: bs) =
    (if b && negb (isRequired r) then 1 else 0) + spec_normalPassed rs bs.
Proof.
  unfold spec_requiredTotal, spec_requiredPassed, spec_normalPassed, passedIn. simpl.
  destruct b, (isRequired r); simpl; auto.
Qed.

(** Passes never exceed totals, and together they are the results that
    are [true]. *)
Lemma spec_counts_bounds (rs : list Rule) :
  forall results, length results = length rs ->
    spec_requiredPassed rs results <= spec_requiredTotal rs /\
    spec_normalPassed rs results + spec_requiredTotal rs <= length rs /\
    spec_requiredPassed rs results + spec_normalPassed rs results
      = length (filter (fun b : bool => b) results).
Proof.
  induction rs as [|r rs IH]; intros [|b bs] Hlen; simpl in Hlen; try discriminate.
  - repeat split; reflexivity.
  - injection Hlen as Hlen. destruct (IH bs Hlen) as (Hr & Hn & Hsum).
    destruct (spec_counts_cons r rs b bs) as (-> & -> & ->).
    destruct b, (isRequired r); simpl; repeat split; lia.
Qed.

Lemma filter_true_all (l : list bool) :
  forallb (fun b => b) l = (length (filter (fun b : bool => b) l) =? length l)%nat.
Proof.
  induction l as [|b l IH]; [reflexivity|].
  destruct b; simpl.
  - exact IH.
  - symmetry. apply Nat.eqb_neq.
    pose proof (filter_length_le (fun b : bool => b) l). lia.
Qed.

Lemma filter_true_some (l : list bool) :
  existsb (fun b => b) l = (0 <? length (filter (fun b : bool => b) l))%nat.
Proof.
  induction l as [|b l IH]; [reflexivity|].
  destruct b; simpl; [reflexivity | exact IH].
Qed.

(** A required rule that fails keeps the required passes short of the
    required total. *)
Lemma required_failure_short (rs : list Rule) :
  forall results i r,
    length results = length rs ->
    nth_error rs i = Some r -> isRequired r = true ->
    nth_error results i = Some false ->
    spec_requiredPassed rs results < spec_requiredTotal rs.
Proof.
  induction rs as [|r0 rs IH]; intros [|b bs] i r Hlen Hr Hreq Hres;
    simpl in Hlen; try discriminate; destruct i as [|i]; simpl in Hr, Hres;
    try discriminate.
  - injection Hr as ->. injection Hres as ->. injection Hlen as Hlen.
    destruct (spec_counts_cons r rs false bs) as (-> & -> & _).
    destruct (spec_counts_bounds rs bs Hlen) as (Hle & _).
    rewrite Hreq. simpl. lia.
  - injection Hlen as Hlen.
    destruct (spec_counts_cons r0 rs b bs) as (-> & -> & _).
    specialize (IH bs i r Hlen Hr Hreq Hres).
    destruct b, (isRequired r0); simpl; lia.
Qed.

Lemma spec_outcome_all (s : Settings) (rs : list Rule) (results : list bool) :
  satisfy s = VString "ALL" -> length results = length rs ->
  spec_outcome s rs results = forallb (fun b => b) results.
Proof.
  intros Hall Hlen. destruct (spec_counts_bounds rs results Hlen) as (Hr & Hn & Hsum).
  rewrite filter_true_all, <- Hsum, Hlen.
  unfold spec_outcome, spec_normalSatisfied, spec_requiredSatisfied, spec_normalTotal.
  rewrite Hall. simpl.
  destruct (Nat.eqb_spec (length rs - spec_requiredTotal rs) 0),
    (Nat.eqb_spec (spec_normalPassed rs results) (length rs - spec_requiredTotal rs)),
    (Nat.eqb_spec (spec_requiredTotal rs) 0),
    (Nat.eqb_spec (spec_requiredPassed rs results) (spec_requiredTotal rs)),
    (Nat.eqb_spec (spec_requiredPassed rs results + spec_normalPassed rs results)
       (length rs));
    simpl; try reflexivity; lia.
Qed.

Lemma spec_requiredTotal_none (rs : list Rule) :
  forallb (fun r => negb (isRequired r)) rs = true -> spec_requiredTotal rs = 0.
Proof.
  unfold spec_requiredTotal. induction rs as [|r rs IH]; simpl; [reflexivity|].
  intros H. apply andb_prop in H as [Hr Hrs]. apply negb_true_iff in Hr.
  rewrite Hr. apply IH. exact Hrs.
Qed.

Lemma spec_outcome_any (s : Settings) (rs : list Rule) (results : list bool) :
  strictEquals (satisfy s) (VString "ALL") = false ->
  forallb (fun r => negb (isRequired r)) rs = true ->
  length results = length rs ->
  spec_outcome s rs results =
  match rs with
  | [] => true
  | _ :: _ => existsb (fun b => b) results
  end.
Proof.
  intros Hany Hnone Hlen. destruct (spec_counts_bounds rs results Hlen) as (Hr & Hn & Hsum).
  pose proof (spec_requiredTotal_none rs Hnone) as Hzero.
  rewrite filter_true_some, <- Hsum.
  unfold spec_outcome, spec_normalSatisfied, spec_requiredSatisfied, spec_normalTotal.
  rewrite Hany, Hzero in *.
  assert (Hp : spec_requiredPassed rs results = 0) by lia. rewrite Hp.
  rewrite Nat.sub_0_r. simpl. rewrite andb_true_r.
  destruct rs as [|r rs]; reflexivity.
Qed.

(** ** The evaluator, whatever resolver it is linked with: further properties *)

Section EvaluatorFurther.

Variable get : JSValue -> JSValue -> Outcome JSValue.
Variable toString : JSValue -> string.
Variable printsTypeof : bool.

Local Abbreviation switchOp := (Evaluator.switchOp toString printsTypeof).
Local Abbreviation ruleCallback := (Evaluator.ruleCallback get toString printsTypeof).
Local Abbreviation mapRules := (Evaluator.mapRules get toString printsTypeof).
Local Abbreviation checkConditions := (Evaluator.checkConditions get toString printsTypeof).

(** X10. A required rule that fails fails the evaluation, whatever
    [satisfy] is and whatever the other rules give: when
    [checkConditions] returns and the result of some rule whose
    [required] is truthy is [false], it returns [false]. *)
Theorem required_failure_fails (s : Settings) (rs : list Rule) (w w1 w2 : World)
    (results : list bool) (c : Counters) (v : JSValue) (i : nat) (r : Rule) :
  rules s = Some rs ->
  mapRules s rs 0 noCounters w = (Return (results, c), w1) ->
  checkConditions (Some s) w = (Return v, w2) ->
  nth_error rs i = Some r -> truthy (rule_required r) = true ->
  nth_error results i = Some false ->
  v = VBool false.
Proof.
  intros Hrules Hmap Hret Hr Hreq Hres.
  apply (checkConditions_returns get toString printsTypeof s rs w Hrules) in Hret.
  destruct Hret as (results' & c' & w1' & Hmap' & _ & ->).
  rewrite Hmap in Hmap'. injection Hmap' as <- <- <-.
  apply mapRules_counts in Hmap as (Hlen & _).
  pose proof (required_failure_short rs results i r Hlen Hr Hreq Hres) as Hshort.
  f_equal. unfold spec_outcome, spec_requiredSatisfied.
  destruct (Nat.eqb_spec (spec_requiredTotal rs) 0); [lia|].
  destruct (Nat.eqb_spec (spec_requiredPassed rs results) (spec_requiredTotal rs)); [lia|].
  apply andb_false_r.
Qed.

(** X11. Under [satisfy: "ALL"] the required flag makes no difference:
    [checkConditions] returns [true] exactly when every rule passes. *)
Theorem all_policy_is_conjunction (s : Settings) (rs : list Rule) (w w2 : World)
    (v : JSValue) :
  rules s = Some rs ->
  satisfy s = VString "ALL" ->
  checkConditions (Some s) w = (Return v, w2) ->
  exists results c w1,
    mapRules s rs 0 noCounters w = (Return (results, c), w1) /\
    v = VBool (forallb (fun b => b) results).
Proof.
  intros Hrules Hall Hret.
  apply (checkConditions_returns get toString printsTypeof s rs w Hrules) in Hret.
  destruct Hret as (results & c & w1 & Hmap & _ & ->).
  exists results, c, w1. split; [exact Hmap|].
  apply mapRules_counts in Hmap as (Hlen & _).
  rewrite (spec_outcome_all s rs results Hall Hlen). reflexivity.
Qed.

(** X12. Under any [satisfy] other than ["ALL"] (unset, ["ANY"], or any
    other value) and without required rules, [checkConditions] returns
    [true] exactly when some rule passes, or there is no rule at all. *)
Theorem any_policy_is_disjunction (s : Settings) (rs : list Rule) (w w2 : World)
    (v : JSValue) :
  rules s = Some rs ->
  strictEquals (satisfy s) (VString "ALL") = false ->
  forallb (fun r => negb (truthy (rule_required r))) rs = true ->
  checkConditions (Some s) w = (Return v, w2) ->
  exists results c w1,
    mapRules s rs 0 noCounters w = (Return (results, c), w1) /\
    v = VBool (match rs with
               | [] => true
               | _ :: _ => existsb (fun b => b) results
               end).
Proof.
  intros Hrules Hany Hnone Hret.
  apply (checkConditions_returns get toString printsTypeof s rs w Hrules) in Hret.
  destruct Hret as (results & c & w1 & Hmap & _ & ->).
  exists results, c, w1. split; [exact Hmap|].
  apply mapRules_counts in Hmap as (Hlen & _).
  rewrite (spec_outcome_any s rs results Hany Hnone Hlen). reflexivity.
Qed.

(** X13. The counters the callback keeps: after the rules are mapped,
    the required passes do not exceed the required total, the normal
    passes do not exceed the normal total, and together they count the
    rules whose result is [true]. *)
Theorem counters_within_totals (s : Settings) (rs : list Rule) (w w1 : World)
    (results : list bool) (c : Counters) :
  mapRules s rs 0 noCounters w = (Return (results, c), w1) ->
  requiredPassed c <= Evaluator.requiredTotal rs /\
  normalPassed c <= Evaluator.normalTotal rs /\
  Evaluator.requiredTotal rs + Evaluator.normalTotal rs = length rs /\
  requiredPassed c + normalPassed c = length (filter (fun b : bool => b) results).
Proof.
  intros Hmap. apply mapRules_counts in Hmap as (Hlen & Hr & Hn). simpl in Hr, Hn.
  destruct (spec_counts_bounds rs results Hlen) as (Hrb & Hnb & Hsum).
  unfold Evaluator.normalTotal. rewrite requiredTotal_spec, Hr, Hn.
  repeat split; lia.
Qed.

Lemma mapRules_withoutLog (s : Settings) (rs : list Rule) (index : nat) (c : Counters) :
  mapRules (withoutLog s) rs index c = mapRules s rs index c.
Proof. reflexivity. Qed.

(** X14. The log sink does not take part in the evaluation: without it
    [checkConditions] returns the same value, and an error thrown without
    it (by a rule) is thrown with it, in the same world. *)
Theorem log_is_only_a_sink (s : Settings) (w : World) :
  (forall v w2,
     checkConditions (Some s) w = (Return v, w2) ->
     exists w1, checkConditions (Some (withoutLog s)) w = (Return v, w1)) /\
  (forall e w1,
     checkConditions (Some (withoutLog s)) w = (Throw e, w1) ->
     checkConditions (Some s) w = (Throw e, w1)).
Proof.
  unfold Evaluator.checkConditions. cbn [withoutLog rules].
  destruct (rules s) as [rs|];
    [|split; [intros v w2 H; exists w; injection H as <- _; reflexivity | discriminate]].
  unfold Evaluator.evaluate. rewrite mapRules_withoutLog. unfold bind.
  destruct (mapRules s rs 0 (mkCounters EmptyString 0 0) w) as [[[results c]|e] w1].
  - split.
    + intros v w2 H. exists w1.
      destruct (Evaluator.deliver s (Evaluator.summary s rs c) w1) as [[[]|e] w2'];
        [|discriminate].
      injection H as <- _. reflexivity.
    + intros e w1' H. discriminate H.
  - split; [discriminate | intros e' w1' H; exact H].
Qed.

(** X15. A [log] that is truthy and not a function is called all the
    same: the rules are evaluated first, callbacks included, and then
    [checkConditions] throws a [TypeError] instead of returning. *)
Theorem truthy_log_must_be_function (s : Settings) (rs : list Rule) (w w1 : World)
    (results : list bool) (c : Counters) (v : JSValue) :
  rules s = Some rs ->
  log s = NotFunction v -> truthy v = true ->
  mapRules s rs 0 noCounters w = (Return (results, c), w1) ->
  checkConditions (Some s) w = (Throw TypeError, w1).
Proof.
  intros Hrules Hlog Hv Hmap. unfold Evaluator.checkConditions, Evaluator.evaluate.
  rewrite Hrules. fold noCounters. rewrite (bind_step _ _ _ _ _ Hmap). cbv beta iota.
  apply bind_throws. unfold Evaluator.deliver. rewrite Hlog, Hv. reflexivity.
Qed.

(** *** Operators *)

(** X16. [none] against [some], on the same value and operand: on an
    array [none] is the negation of [some]; on [null] and [undefined]
    [none] passes and [some] fails; on every other value both fail. *)
Theorem none_against_some (s : Settings) (rule_some rule_none : Rule) (index : nat)
    (value targetValue : JSValue) (alt : option bool) (c : Counters) (w : World) :
  rule_op rule_some = VString "some" ->
  rule_op rule_none = VString "none" ->
  exists some none,
    switchOp s rule_some index value targetValue alt c w = (Return (some, c), w) /\
    switchOp s rule_none index value targetValue alt c w = (Return (none, c), w) /\
    (isArray value = true -> none = negb some) /\
    (isNullish value = true -> none = true /\ some = false) /\
    (isArray value = false -> isNullish value = false -> none = false /\ some = false).
Proof.
  intros Hsome Hnone. unfold Evaluator.switchOp. rewrite Hsome, Hnone. simpl. unfold ret.
  eexists _, _. split; [reflexivity|]. split; [reflexivity|].
  destruct value; simpl; repeat split; intros; try discriminate; reflexivity.
Qed.

Lemma find_mismatch (f : JSValue -> bool) (l : list JSValue) :
  match find (fun v => negb (f v)) l with
  | Some v => In v l /\ f v = false /\ forallb f l = false
  | None => forallb f l = true
  end.
Proof.
  induction l as [|x l IH]; simpl; [reflexivity|].
  destruct (f x) eqn:Hx; simpl.
  - destruct (find (fun v => negb (f v)) l) as [v|].
    + destruct IH as (Hin & Hv & Hall). auto.
    + exact IH.
  - auto.
Qed.

(** X17. What [all] guarantees.  It fails on a value that is not an
    array; it passes on an array whose elements all strictly equal the
    operand (the empty array among them); and on an array of truthy
    elements it passes only then. *)
Theorem all_on_truthy_elements (s : Settings) (r : Rule) (index : nat)
    (value targetValue : JSValue) (alt : option bool) (c : Counters) (w : World) :
  rule_op r = VString "all" ->
  exists result,
    switchOp s r index value targetValue alt c w = (Return (result, c), w) /\
    (isArray value = false -> result = false) /\
    (forall elems, value = VArray elems ->
       (forallb (fun v => strictEquals v targetValue) elems = true -> result = true) /\
       (forallb truthy elems = true ->
        result = forallb (fun v => strictEquals v targetValue) elems)).
Proof.
  intros Hop. rewrite (all_case toString printsTypeof s r index value targetValue alt c w Hop).
  eexists. split; [reflexivity|]. split.
  - destruct value; intros H; try reflexivity. discriminate H.
  - intros elems ->.
    pose proof (find_mismatch (fun v => strictEquals v targetValue) elems) as Hfind.
    destruct (find (fun v => negb (strictEquals v targetValue)) elems) as [v|].
    + destruct Hfind as (Hin & Hv & Hall). rewrite Hall. split; [discriminate|].
      intros Htruthy. rewrite forallb_forall in Htruthy. rewrite (Htruthy v Hin). reflexivity.
    + rewrite Hfind. split; reflexivity.
Qed.


Lemma toLowerChar_cases (c d : ascii) :
  toLowerChar c = d -> c = d \/ c = ascii_of_nat (nat_of_ascii d - 32).
Proof.
  unfold toLowerChar. destruct (ascii_in 65 90 c) eqn:Hup; [|auto].
  intros <-. right.
  unfold ascii_in in Hup. apply andb_prop in Hup as [_ Hle]. apply Nat.leb_le in Hle.
  rewrite nat_ascii_embedding by lia.
  rewrite Nat.add_sub, ascii_nat_embedding. reflexivity.
Qed.

(** The words [true] and [false], in any letter case, do not read as a
    number. *)
Lemma boolean_word_is_not_a_number (t : string) (p : bool) :
  toLowerCase t = boolToString p -> StringToNumber t = None.
Proof.
  intros H. apply (f_equal chars) in H. unfold toLowerCase in H. rewrite chars_text in H.
  unfold StringToNumber.
  destruct p; simpl in H.
  - destruct (chars t) as [|c1 [|c2 [|c3 [|c4 [|c5 l]]]]]; try discriminate H.
    injection H as H1 H2 H3 H4.
    apply toLowerChar_cases in H1, H2, H3, H4.
    destruct H1 as [-> | ->], H2 as [-> | ->], H3 as [-> | ->], H4 as [-> | ->];
      reflexivity.
  - destruct (chars t) as [|c1 [|c2 [|c3 [|c4 [|c5 [|c6 l]]]]]]; try discriminate H.
    injection H as H1 H2 H3 H4 H5.
    apply toLowerChar_cases in H1, H2, H3, H4, H5.
    destruct H1 as [-> | ->], H2 as [-> | ->], H3 as [-> | ->], H4 as [-> | ->],
      H5 as [-> | ->]; reflexivity.
Qed.

(** X18. A boolean value against the word [true] or [false] written in
    any letter case: [eq] passes exactly when the value is the boolean
    the word names, and [ne] (and [neq]) exactly when it is not. *)
Theorem boolean_against_its_word (s : Settings) (rule_eq rule_ne : Rule) (index : nat)
    (b p : bool) (t : string) (c : Counters) (w : World) :
  rule_op rule_eq = VString "eq" ->
  rule_op rule_ne = VString "ne" \/ rule_op rule_ne = VString "neq" ->
  toLowerCase t = boolToString p ->
  switchOp s rule_eq index (VBool b) (VString t)
    (Evaluator.altComparison (VBool b) (VString t)) c w
    = (Return (Bool.eqb b p, c), w) /\
  switchOp s rule_ne index (VBool b) (VString t)
    (Evaluator.altComparison (VBool b) (VString t)) c w
    = (Return (negb (Bool.eqb b p), c), w).
Proof.
  intros Heq Hne Hword.
  assert (Hloose : looseEquals (VBool b) (VString t) = false).
  { unfold looseEquals. simpl. unfold ToNumber at 2. simpl.
    rewrite (boolean_word_is_not_a_number t p Hword). destruct b; reflexivity. }
  assert (Halt : Evaluator.altComparison (VBool b) (VString t) = Some p).
  { unfold Evaluator.altComparison. rewrite Hword. destruct p; reflexivity. }
  assert (Hbool : looseEquals (VBool b) (VBool p) = Bool.eqb b p).
  { destruct b, p; reflexivity. }
  unfold Evaluator.switchOp. rewrite Heq, Halt.
  destruct Hne as [-> | ->]; simpl; unfold ret; rewrite Hloose, Hbool; split; reflexivity.
Qed.

(** *** Prefixes, suffixes and substrings *)

Lemma isPrefix_iff (p l : list ascii) :
  isPrefix p l = true <-> exists t, l = p ++ t.
Proof.
  revert l. induction p as [|a p IH]; intros l; simpl.
  - split; [intros _; exists l; reflexivity | reflexivity].
  - destruct l as [|b l].
    + split; [discriminate | intros [t Ht]; discriminate Ht].
    + rewrite andb_true_iff, IH. split.
      * intros [Hab [t ->]]. apply Ascii.eqb_eq in Hab as ->. exists t. reflexivity.
      * intros [t Ht]. injection Ht as -> ->. split; [apply Ascii.eqb_refl | eauto].
Qed.

Lemma isPrefix_app (p t : list ascii) : isPrefix p (p ++ t) = true.
Proof. apply isPrefix_iff. exists t. reflexivity. Qed.

Lemma isInfix_prefix (p l : list ascii) : isPrefix p l = true -> isInfix p l = true.
Proof. intros H. destruct l; simpl in *; rewrite H; reflexivity. Qed.

Lemma isInfix_app (p a b : list ascii) : isInfix p (a ++ p ++ b) = true.
Proof.
  induction a as [|c a IH].
  - simpl. apply isInfix_prefix, isPrefix_app.
  - simpl. rewrite IH. apply orb_true_r.
Qed.

(** X19. On the same value and operand, a rule with [startsWith] or
    [endsWith] that passes implies that the rule with [contains]
    passes. *)
Theorem prefix_and_suffix_are_contained (s : Settings) (rule_starts rule_ends rule_contains : Rule)
    (index : nat) (value targetValue : JSValue) (alt : option bool) (c : Counters)
    (w : World) :
  rule_op rule_starts = VString "startsWith" ->
  rule_op rule_ends = VString "endsWith" ->
  rule_op rule_contains = VString "contains" ->
  exists starts ends contains,
    switchOp s rule_starts index value targetValue alt c w = (Return (starts, c), w) /\
    switchOp s rule_ends index value targetValue alt c w = (Return (ends, c), w) /\
    switchOp s rule_contains index value targetValue alt c w = (Return (contains, c), w) /\
    (starts = true -> contains = true) /\
    (ends = true -> contains = true).
Proof.
  intros Hs He Hc. unfold Evaluator.switchOp. rewrite Hs, He, Hc. simpl. unfold ret.
  eexists _, _, _. repeat (split; [reflexivity|]).
  unfold startsWith, endsWith, includes. split.
  - apply isInfix_prefix.
  - intros H. apply isPrefix_iff in H as [t Ht].
    apply (f_equal (@rev ascii)) in Ht. rewrite rev_involutive, rev_app_distr, rev_involutive in Ht.
    rewrite Ht. rewrite <- (app_nil_r (chars (ToString targetValue))) at 2.
    apply isInfix_app.
Qed.

(** *** The trace *)

Lemma append_assoc (a b c : string) : ((a ++ b) ++ c = a ++ (b ++ c))%string.
Proof. induction a as [|x a IH]; simpl; [reflexivity | rewrite IH; reflexivity]. Qed.

Lemma append_nil_r (a : string) : (a ++ EmptyString = a)%string.
Proof. induction a as [|x a IH]; simpl; [reflexivity | rewrite IH; reflexivity]. Qed.

Lemma startsWith_three (a b c tail : string) :
  startsWith (a ++ b ++ c ++ tail) (a ++ b ++ c) = true.
Proof.
  unfold startsWith. rewrite !chars_append.
  replace (chars a ++ chars b ++ chars c ++ chars tail)
    with ((chars a ++ chars b ++ chars c) ++ chars tail)
    by (rewrite <- !app_assoc; reflexivity).
  apply isPrefix_app.
Qed.

Lemma endsWith_refl_append (x y : string) : endsWith (x ++ y) y = true.
Proof.
  unfold endsWith. rewrite chars_append, rev_app_distr. apply isPrefix_app.
Qed.

Lemma endsWith_append (x y z : string) :
  endsWith y z = true -> endsWith (x ++ y) z = true.
Proof.
  unfold endsWith. rewrite chars_append, rev_app_distr. intros H.
  apply isPrefix_iff in H as [t ->]. rewrite <- app_assoc. apply isPrefix_app.
Qed.

Lemma traceLine_shape (r : Rule) (index : nat) (value targetValue : JSValue) (result : bool) :
  startsWith (traceLine r index value targetValue result)
    ("(" ++ natToString index ++ ") ") = true /\
  endsWith (traceLine r index value targetValue result) nl = true.
Proof.
  unfold traceLine. split.
  - apply startsWith_three.
  - repeat apply endsWith_append. reflexivity.
Qed.

(** Outside [crosses] the [switch] leaves the closed-over variables and
    the world as they are. *)
Lemma switchOp_not_crosses (s : Settings) (r : Rule) (index : nat)
    (value targetValue : JSValue) (alt : option bool) (c c' : Counters) (w w' : World)
    (result : bool) :
  notCrosses r = true ->
  switchOp s r index value targetValue alt c w = (Return (result, c'), w') ->
  c' = c /\ w' = w.
Proof.
  unfold notCrosses, Evaluator.switchOp.
  destruct (rule_op r) as [| |b|n|op|l|l]; try discriminate.
  simpl. intros Hnc. apply negb_true_iff in Hnc. rewrite Hnc. unfold ret, throw.
  intros H.
  repeat match type of H with
         | context [if ?b then _ else _] => destruct b
         end; try discriminate H; injection H as _ <- <-; split; reflexivity.
Qed.

Lemma ruleCallback_appends (s : Settings) (r : Rule) (index : nat) (c c' : Counters)
    (w w' : World) (result : bool) :
  notCrosses r = true ->
  ruleCallback s r index c w = (Return (result, c'), w') ->
  exists value targetValue,
    debugStr c' = (debugStr c ++ traceLine r index value targetValue result)%string.
Proof.
  intros Hnc. unfold Evaluator.ruleCallback.
  destruct (truthy (rule_property r)); simpl; [|discriminate].
  intros H.
  apply bind_returns in H as (ref & w1 & _ & H).
  apply bind_returns in H as (value & w2 & _ & H).
  apply bind_returns in H as (targetValue & w3 & _ & H).
  apply bind_returns in H as ([result0 c0] & w4 & Hswitch & H).
  apply (switchOp_not_crosses _ _ _ _ _ _ _ _ _ _ _ Hnc) in Hswitch as [-> _].
  injection H as <- <- _. exists value, targetValue. reflexivity.
Qed.

(** X20. Rules other than [crosses] only append to the trace, one line
    each and in rule order: after such rules are mapped, the trace is the
    trace before them followed by one line per rule, the line of the rule
    at position [i] starting with its index in parentheses and ending
    with a line feed. *)
Theorem trace_grows_by_lines (s : Settings) (rs : list Rule) :
  forall (index : nat) (c c' : Counters) (w w' : World) (results : list bool),
    forallb notCrosses rs = true ->
    mapRules s rs index c w = (Return (results, c'), w') ->
    exists lines,
      length lines = length rs /\
      debugStr c' = (debugStr c ++ joinLines lines)%string /\
      forall i line,
        nth_error lines i = Some line ->
        startsWith line ("(" ++ natToString (index + i) ++ ") ") = true /\
        endsWith line nl = true.
Proof.
  induction rs as [|r rs IH]; intros index c c' w w' results Hnc H; simpl in H.
  - injection H as _ <- _. exists []. split; [reflexivity|]. split.
    + simpl. rewrite append_nil_r. reflexivity.
    + intros [|i] line Hi; discriminate Hi.
  - simpl in Hnc. apply andb_prop in Hnc as [Hr Hrs].
    apply bind_returns in H as ([result c1] & w1 & Hrule & H).
    apply bind_returns in H as ([results' c2] & w2 & Hrest & H).
    injection H as _ <- _.
    apply (ruleCallback_appends _ _ _ _ _ _ _ _ Hr) in Hrule as (value & targetValue & Hline).
    apply (IH _ _ _ _ _ _ Hrs) in Hrest as (lines & Hlen & Htrace & Hshape).
    exists (traceLine r index value targetValue result :: lines).
    split; [simpl; rewrite Hlen; reflexivity|]. split.
    + rewrite Htrace, Hline. simpl. apply append_assoc.
    + intros [|i] line Hi; simpl in Hi.
      * injection Hi as <-. rewrite Nat.add_0_r. apply traceLine_shape.
      * rewrite <- Nat.add_succ_comm. apply Hshape. exact Hi.
Qed.

Lemma isPrefix_app_long (p l t : list ascii) :
  length p <= length l -> isPrefix p (l ++ t) = isPrefix p l.
Proof.
  revert l. induction p as [|a p IH]; intros l Hlen; [reflexivity|].
  destruct l as [|b l]; simpl in Hlen; [lia|].
  simpl. rewrite IH by lia. reflexivity.
Qed.

(** The last line of the trace names the outcome. *)
Lemma summary_verdict (s : Settings) (rs : list Rule) (c : Counters) :
  endsWith (Evaluator.summary s rs c) "Result: PASS" =
    Evaluator.normalSatisfied s rs c && Evaluator.requiredSatisfied rs c /\
  endsWith (Evaluator.summary s rs c) "Result: FAIL" =
    negb (Evaluator.normalSatisfied s rs c && Evaluator.requiredSatisfied rs c).
Proof.
  unfold Evaluator.summary, endsWith.
  destruct (Evaluator.normalSatisfied s rs c && Evaluator.requiredSatisfied rs c);
    rewrite !chars_append, !rev_app_distr;
    (split;
     [ rewrite 3 isPrefix_app_long by (rewrite ?length_app; simpl; lia); reflexivity
     | rewrite 3 isPrefix_app_long by (rewrite ?length_app; simpl; lia); reflexivity ]).
Qed.

(** X21. The trace handed to [log] ends with the verdict that is
    returned: its last line is [Result: PASS] when [checkConditions]
    returns [true] and [Result: FAIL] when it returns [false]. *)
Theorem trace_ends_with_verdict (s : Settings) (rs : list Rule) (f : LogFn)
    (w w2 : World) (v : JSValue) :
  rules s = Some rs ->
  log s = Function f ->
  checkConditions (Some s) w = (Return v, w2) ->
  exists trace w1,
    f trace w1 = (Return tt, w2) /\
    v = VBool (endsWith trace "Result: PASS") /\
    endsWith trace "Result: FAIL" = negb (endsWith trace "Result: PASS").
Proof.
  intros Hrules Hlog H. unfold Evaluator.checkConditions, Evaluator.evaluate in H.
  rewrite Hrules in H.
  apply bind_returns in H as ([results c] & w1 & _ & H).
  apply bind_returns in H as ([] & w1' & Hdeliver & H).
  injection H as <- <-.
  unfold Evaluator.deliver in Hdeliver. rewrite Hlog in Hdeliver.
  destruct (summary_verdict s rs c) as [Hpass Hfail].
  exists (Evaluator.summary s rs c), w1. rewrite Hpass, Hfail. auto.
Qed.

(** *** The wildcard *)

Lemma cutAt_wildcard (a b : list ascii) :
  isInfix (chars "[]") a = false ->
  cutAt (chars "[]") (a ++ chars "[]" ++ b) = Some (a, b).
Proof.
  induction a as [|c a IH]; intros Hno.
  - reflexivity.
  - change (isInfix (chars "[]") (c :: a))
      with (isPrefix (chars "[]") (c :: a) || isInfix (chars "[]") a) in Hno.
    apply orb_false_iff in Hno as [Hhead Htail].
    change (cutAt (chars "[]") ((c :: a) ++ chars "[]" ++ b))
      with (if isPrefix (chars "[]") (c :: a ++ chars "[]" ++ b)
            then Some ([], skipn (length (chars "[]")) (c :: a ++ chars "[]" ++ b))
            else match cutAt (chars "[]") (a ++ chars "[]" ++ b) with
                 | Some (before, after) => Some (c :: before, after)
                 | None => None
                 end).
    rewrite (IH Htail).
    assert (Hnot : isPrefix (chars "[]") (c :: a ++ chars "[]" ++ b) = false).
    { change (chars "[]") with ["["%char; "]"%char] in *.
      cbn [isPrefix app] in Hhead |- *.
      destruct (Ascii.eqb "[" c); [|reflexivity].
      destruct a as [|d a]; [reflexivity|].
      cbn [isPrefix app] in Hhead |- *. exact Hhead. }
    rewrite Hnot. reflexivity.
Qed.

Lemma cutAt_absent (l : list ascii) :
  isInfix (chars "[]") l = false -> cutAt (chars "[]") l = None.
Proof.
  induction l as [|c l IH]; intros Hno.
  - reflexivity.
  - change (isInfix (chars "[]") (c :: l))
      with (isPrefix (chars "[]") (c :: l) || isInfix (chars "[]") l) in Hno.
    apply orb_false_iff in Hno as [Hhead Htail].
    change (cutAt (chars "[]") (c :: l))
      with (if isPrefix (chars "[]") (c :: l)
            then Some ([], skipn (length (chars "[]")) (c :: l))
            else match cutAt (chars "[]") l with
                 | Some (before, after) => Some (c :: before, after)
                 | None => None
                 end).
    rewrite Hhead, (IH Htail). reflexivity.
Qed.

Lemma splitWildcard_once (top rest : string) :
  includes top "[]" = false -> includes rest "[]" = false ->
  splitWildcard (top ++ "[]" ++ rest) = (top, Some rest) /\
  includes (top ++ "[]" ++ rest) "[]" = true.
Proof.
  unfold includes, splitWildcard. intros Htop Hrest.
  rewrite !chars_append. split.
  - rewrite (cutAt_wildcard _ _ Htop), (cutAt_absent _ Hrest), !text_chars. reflexivity.
  - apply isInfix_app.
Qed.

Lemma mapItems_pointwise (nestedPath : string) (items vs : list JSValue) :
  Forall2 (fun item v =>
             (nestedPath = EmptyString /\ v = item) \/
             (nestedPath <> EmptyString /\ get item (VString nestedPath) = Return v))
          items vs ->
  Evaluator.mapItems get nestedPath items = Return vs.
Proof.
  induction 1 as [|item v items vs Hitem _ IH]; simpl; [reflexivity|].
  rewrite IH. destruct Hitem as [[-> ->] | [Hne Hget]].
  - reflexivity.
  - destruct nestedPath as [|ch nestedPath]; [congruence|].
    simpl. rewrite Hget. reflexivity.
Qed.

(** X22. A wildcard property [top[]rest], with the marker occurring
    once, whose collection path [top] resolves to an array: the value of
    the rule is the array of what the sub-path gives for each item, in
    order.  The sub-path is [rest] without its first character, whatever
    that character is; when it is empty the items themselves are the
    value. *)
Theorem wildcard_maps_items (ref : JSValue) (top rest : string)
    (value0 : JSValue) (items vs : list JSValue) :
  includes top "[]" = false -> includes rest "[]" = false ->
  get ref (VString (top ++ "[]" ++ rest)) = Return value0 ->
  get ref (VString top) = Return (VArray items) ->
  Forall2 (fun item v =>
             (substring1 rest = EmptyString /\ v = item) \/
             (substring1 rest <> EmptyString /\
              get item (VString (substring1 rest)) = Return v))
          items vs ->
  Evaluator.resolveValue get ref (VString (top ++ "[]" ++ rest)) = Return (VArray vs).
Proof.
  intros Htop Hrest Hvalue Hcoll Hitems.
  destruct (splitWildcard_once top rest Htop Hrest) as [Hsplit Hinc].
  unfold Evaluator.resolveValue, Evaluator.propertyIncludesWildcard.
  rewrite Hvalue, Hinc, Hsplit, Hcoll, (mapItems_pointwise _ _ _ Hitems). reflexivity.
Qed.

End EvaluatorFurther.
Lemma log_is_only_a_sink_witness :
  exists w1,
    Evaluator.checkConditions Lodash.get Lodash.toString true
      (Some (withoutLog tracedCrossing)) (worldOf gauge) = (Return (VBool true), w1).
Proof.
  destruct (log_is_only_a_sink Lodash.get Lodash.toString true tracedCrossing (worldOf gauge))
    as [H _].
  apply (H (VBool true) (mkWorld gauge
           ["function";
            ("(1) level was 5 and became 10. crossed 7? true" ++ nl ++
             "(1) level (10)  crosses 7? true" ++ nl ++
             "Passed 1 / 2 (need ANY, pass)" ++ nl ++
             "Result: PASS")%string])).
  reflexivity.
Defined.

Lemma none_against_some_witness :
  exists some none,
    Evaluator.switchOp Lodash.toString true (plainSettings []) (rule "tags" "some" (VNumber 2)) 0
      (VArray [VNumber 1; VNumber 2]) (VNumber 2) None noCounters (worldOf account)
      = (Return (some, noCounters), worldOf account) /\
    Evaluator.switchOp Lodash.toString true (plainSettings []) (rule "tags" "none" (VNumber 2)) 0
      (VArray [VNumber 1; VNumber 2]) (VNumber 2) None noCounters (worldOf account)
      = (Return (none, noCounters), worldOf account) /\
    none = negb some.
Proof.
  destruct (none_against_some Lodash.toString true (plainSettings [])
              (rule "tags" "some" (VNumber 2)) (rule "tags" "none" (VNumber 2)) 0
              (VArray [VNumber 1; VNumber 2]) (VNumber 2) None noCounters (worldOf account)
              eq_refl eq_refl) as (some & none & H1 & H2 & H3 & _).
  exists some, none. split; [exact H1|]. split; [exact H2|]. apply H3. reflexivity.
Defined.

Lemma all_on_truthy_elements_witness :
  exists result,
    Evaluator.switchOp Lodash.toString true (plainSettings []) (rule "a" "all" (VNumber 1)) 0
      (VArray [VNumber 1; VNumber 2]) (VNumber 1) None noCounters (worldOf account)
      = (Return (result, noCounters), worldOf account) /\
    result = false.
Proof.
  destruct (all_on_truthy_elements Lodash.toString true (plainSettings [])
              (rule "a" "all" (VNumber 1)) 0 (VArray [VNumber 1; VNumber 2]) (VNumber 1)
              None noCounters (worldOf account) eq_refl) as (result & H1 & _ & H3).
  exists result. split; [exact H1|].
  destruct (H3 [VNumber 1; VNumber 2] eq_refl) as [_ H]. apply H. reflexivity.
Defined.

Lemma required_failure_fails_witness :
  exists v,
    checkConditions (Some (plainSettings requiredFails)) (worldOf account)
      = (Return v, worldOf account) /\
    v = VBool false.
Proof.
  eexists. split; [reflexivity|].
  eapply (required_failure_fails Lodash.get Lodash.toString true
            (plainSettings requiredFails) requiredFails (worldOf account) _ _ [false; true]
            _ _ 0 (mkRule (VString "a") (VString "eq") (VNumber 2) (VBool true)));
    reflexivity.
Defined.

Lemma all_policy_is_conjunction_witness :
  exists results c w1,
    Evaluator.mapRules Lodash.get Lodash.toString true (mixedSettings (VString "ALL"))
      mixedRules 0 noCounters (worldOf account) = (Return (results, c), w1) /\
    VBool false = VBool (forallb (fun b => b) results).
Proof.
  apply (all_policy_is_conjunction Lodash.get Lodash.toString true
           (mixedSettings (VString "ALL")) mixedRules (worldOf account) (worldOf account)
           (VBool false)); reflexivity.
Defined.

Lemma any_policy_is_disjunction_witness :
  exists results c w1,
    Evaluator.mapRules Lodash.get Lodash.toString true (plainSettings secondPasses)
      secondPasses 0 noCounters (worldOf account) = (Return (results, c), w1) /\
    VBool true = VBool (existsb (fun b => b) results).
Proof.
  apply (any_policy_is_disjunction Lodash.get Lodash.toString true
           (plainSettings secondPasses) secondPasses (worldOf account) (worldOf account)
           (VBool true)); reflexivity.
Defined.

Lemma counters_within_totals_witness :
  exists c,
    requiredPassed c <= Evaluator.requiredTotal mixedRules /\
    normalPassed c <= Evaluator.normalTotal mixedRules /\
    Evaluator.requiredTotal mixedRules + Evaluator.normalTotal mixedRules = 3 /\
    requiredPassed c + normalPassed c = 2.
Proof.
  eexists.
  eapply (counters_within_totals Lodash.get Lodash.toString true (mixedSettings VUndefined)
            mixedRules (worldOf account) _ [true; true; false]).
  reflexivity.
Defined.

Lemma truthy_log_must_be_function_witness :
  checkConditions (Some brokenLog) (worldOf account) = (Throw TypeError, worldOf account).
Proof.
  eapply (truthy_log_must_be_function Lodash.get Lodash.toString true brokenLog secondPasses
            (worldOf account) (worldOf account) [false; true] _ (VBool true));
    reflexivity.
Defined.

Lemma boolean_against_its_word_witness :
  Evaluator.switchOp Lodash.toString true (plainSettings []) (rule "active" "eq" (VString "True"))
    0 (VBool true) (VString "True")
    (Evaluator.altComparison (VBool true) (VString "True")) noCounters (worldOf account)
    = (Return (true, noCounters), worldOf account) /\
  Evaluator.switchOp Lodash.toString true (plainSettings []) (rule "active" "ne" (VString "True"))
    0 (VBool true) (VString "True")
    (Evaluator.altComparison (VBool true) (VString "True")) noCounters (worldOf account)
    = (Return (false, noCounters), worldOf account).
Proof.
  apply (boolean_against_its_word Lodash.toString true (plainSettings [])
           (rule "active" "eq" (VString "True")) (rule "active" "ne" (VString "True"))
           0 true true "True" noCounters (worldOf account));
    [reflexivity | left; reflexivity | reflexivity].
Defined.

Lemma prefix_and_suffix_are_contained_witness :
  exists starts ends contains,
    Evaluator.switchOp Lodash.toString true (plainSettings [])
      (rule "name" "startsWith" (VString "ab")) 0 (VString "abc") (VString "ab") None
      noCounters (worldOf account) = (Return (starts, noCounters), worldOf account) /\
    Evaluator.switchOp Lodash.toString true (plainSettings [])
      (rule "name" "endsWith" (VString "ab")) 0 (VString "abc") (VString "ab") None
      noCounters (worldOf account) = (Return (ends, noCounters), worldOf account) /\
    Evaluator.switchOp Lodash.toString true (plainSettings [])
      (rule "name" "contains" (VString "ab")) 0 (VString "abc") (VString "ab") None
      noCounters (worldOf account) = (Return (contains, noCounters), worldOf account) /\
    (starts = true -> contains = true) /\
    (ends = true -> contains = true).
Proof.
  apply (prefix_and_suffix_are_contained Lodash.toString true (plainSettings [])
           (rule "name" "startsWith" (VString "ab")) (rule "name" "endsWith" (VString "ab"))
           (rule "name" "contains" (VString "ab")) 0 (VString "abc") (VString "ab") None
           noCounters (worldOf account)); reflexivity.
Defined.

Lemma trace_grows_by_lines_witness :
  exists lines,
    length lines = 3 /\
    ("(0) a (1)  eq 1? true" ++ nl ++ "(1) a (1)  eq 1? true" ++ nl ++
     "(2) a (1)  eq 2? false" ++ nl)%string = joinLines lines /\
    forall i line,
      nth_error lines i = Some line ->
      startsWith line ("(" ++ natToString (0 + i) ++ ") ") = true /\
      endsWith line nl = true.
Proof.
  apply (trace_grows_by_lines Lodash.get Lodash.toString true (mixedSettings VUndefined)
           mixedRules 0 noCounters
           (mkCounters ("(0) a (1)  eq 1? true" ++ nl ++ "(1) a (1)  eq 1? true" ++ nl ++
                        "(2) a (1)  eq 2? false" ++ nl) 1 1)
           (worldOf account) (worldOf account) [true; true; false]);
    reflexivity.
Defined.

Lemma trace_ends_with_verdict_witness :
  exists trace w1,
    record trace w1
      = (Return tt,
         mkWorld gauge
           ["function";
            ("(1) level was 5 and became 10. crossed 7? true" ++ nl ++
             "(1) level (10)  crosses 7? true" ++ nl ++
             "Passed 1 / 2 (need ANY, pass)" ++ nl ++
             "Result: PASS")%string]) /\
    VBool true = VBool (endsWith trace "Result: PASS") /\
    endsWith trace "Result: FAIL" = negb (endsWith trace "Result: PASS").
Proof.
  exact (trace_ends_with_verdict Lodash.get Lodash.toString true tracedCrossing
           tracedRules record (worldOf gauge) _ (VBool true) eq_refl eq_refl eq_refl).
Defined.

Lemma wildcard_maps_items_witness :
  Evaluator.resolveValue Lodash.get catalog (VString "items[].x")
    = Return (VArray [VNumber 1; VNumber 2]) /\
  Evaluator.resolveValue Reduced.get catalog (VString "items[]")
    = Return (VArray [VObject [("x", VNumber 1)]; VObject [("x", VNumber 2)]]).
Proof.
  split.
  - apply (wildcard_maps_items Lodash.get catalog "items" ".x" VUndefined
             [VObject [("x", VNumber 1)]; VObject [("x", VNumber 2)]]
             [VNumber 1; VNumber 2]); try reflexivity.
    apply Forall2_cons; [right; split; [discriminate | reflexivity]|].
    apply Forall2_cons; [right; split; [discriminate | reflexivity]|].
    apply Forall2_nil.
  - apply (wildcard_maps_items Reduced.get catalog "items" EmptyString
             (VArray [VObject [("x", VNumber 1)]; VObject [("x", VNumber 2)]])
             [VObject [("x", VNumber 1)]; VObject [("x", VNumber 2)]]
             [VObject [("x", VNumber 1)]; VObject [("x", VNumber 2)]]); try reflexivity.
    apply Forall2_cons; [left; split; reflexivity|].
    apply Forall2_cons; [left; split; reflexivity|].
    apply Forall2_nil.
Defined.

(** ** [stringToPath] on names and bracketed indices *)

Lemma dropWhile_none {A} (p : A -> bool) (l : list A) :
  forallb (fun x => negb (p x)) l = true -> dropWhile p l = l.
Proof.
  destruct l as [|x l]; simpl; [reflexivity|].
  intros H. apply andb_prop in H as [Hx _]. apply negb_true_iff in Hx. rewrite Hx.
  reflexivity.
Qed.

Lemma trim_no_space (l : list ascii) :
  forallb (fun c => negb (isSpace c)) l = true -> trim l = l.
Proof.
  intros H. unfold trim. rewrite (dropWhile_none isSpace l H).
  rewrite dropWhile_none; [apply rev_involutive|].
  rewrite forallb_forall in *. intros x Hx. apply H, in_rev. exact Hx.
Qed.

Lemma isIndexExpr_chars (e : string) :
  isIndexExpr e = true ->
  exists q t, chars e = q :: t /\ Lodash.isQuote q = false /\
              forallb plainChar (q :: t) = true /\ trim (q :: t) = q :: t.
Proof.
  unfold isIndexExpr. intros H. apply andb_prop in H as [Hne Hall].
  destruct e as [|q e]; [discriminate|].
  exists q, (chars e). change (chars (String q e)) with (q :: chars e) in Hall.
  split; [reflexivity|].
  assert (Hparts : forallb plainChar (q :: chars e) = true /\
                   forallb (fun c => negb (Lodash.isQuote c)) (q :: chars e) = true /\
                   forallb (fun c => negb (isSpace c)) (q :: chars e) = true).
  { clear Hne. induction (q :: chars e) as [|c l IH]; [auto|].
    simpl in Hall |- *. apply andb_prop in Hall as [Hc Hl].
    unfold indexChar in Hc. apply andb_prop in Hc as [Hc Hs]. apply andb_prop in Hc as [Hp Hq].
    destruct (IH Hl) as (H1 & H2 & H3). rewrite Hp, Hq, Hs, H1, H2, H3. auto. }
  destruct Hparts as (Hp & Hq & Hs).
  split; [|split; [exact Hp | apply trim_no_space; exact Hs]].
  simpl in Hq. apply andb_prop in Hq as [Hq _]. apply negb_true_iff in Hq. exact Hq.
Qed.

(** The text of the segments starts with a separator, when there is
    one. *)
Lemma renderPath_head (segs : list Segment) :
  match chars (renderPath segs) with
  | [] => True
  | c :: _ => plainChar c = false
  end.
Proof.
  destruct segs as [|[n|e] segs]; simpl; [exact I | reflexivity | reflexivity].
Qed.

Lemma stopAtOpen_run (a b : list ascii) :
  forallb (fun d => negb (Ascii.eqb d "["%char)) a = true ->
  takeWhile (fun d => negb (Ascii.eqb d "["%char)) (a ++ b) =
  a ++ takeWhile (fun d => negb (Ascii.eqb d "["%char)) b.
Proof.
  induction a as [|c a IH]; simpl; [reflexivity|].
  intros H. apply andb_prop in H as [Hc Ha]. rewrite Hc, (IH Ha). reflexivity.
Qed.

Lemma plain_not_open (l : list ascii) :
  forallb plainChar l = true ->
  forallb (fun d => negb (Ascii.eqb d "["%char)) l = true /\
  forallb (fun d => negb (Ascii.eqb "]"%char d)) l = true.
Proof.
  induction l as [|c l IH]; cbn [forallb]; [auto|].
  intros H. apply andb_prop in H as [Hc Hl].
  destruct (plainChar_not_separator c Hc) as (_ & Hopen & Hclose).
  destruct (IH Hl) as [H1 H2].
  rewrite Hopen, (Ascii.eqb_sym "]" c), Hclose, H1, H2. auto.
Qed.

(** Up to the next opening bracket the text of the segments has no
    closing bracket. *)
Lemma renderPath_no_close (segs : list Segment) :
  forallb segmentOk segs = true ->
  forallb (fun d => negb (Ascii.eqb "]"%char d))
    (takeWhile (fun d => negb (Ascii.eqb d "["%char)) (chars (renderPath segs))) = true.
Proof.
  induction segs as [|[n|e] segs IH]; intros Hok; [reflexivity| |reflexivity].
  simpl in Hok. apply andb_prop in Hok as [Hn Hsegs].
  destruct (isName_chars n Hn) as (c & run & Hc & Hrun).
  destruct (plain_not_open _ Hrun) as [Hopen Hclose].
  change (renderPath (Dot n :: segs)) with ("." ++ n ++ renderPath segs)%string.
  rewrite !chars_append, Hc. change (chars ".") with ["."%char].
  change (["."%char] ++ (c :: run) ++ chars (renderPath segs))
    with (("."%char :: c :: run) ++ chars (renderPath segs)).
  rewrite stopAtOpen_run by (simpl; simpl in Hopen; exact Hopen).
  rewrite forallb_app. rewrite (IH Hsegs), andb_true_r.
  simpl. simpl in Hclose. exact Hclose.
Qed.

Lemma beforeLast_absent (p : ascii -> bool) (l : list ascii) :
  forallb (fun d => negb (p d)) l = true -> Lodash.beforeLast p l = None.
Proof.
  induction l as [|c l IH]; simpl; [reflexivity|].
  intros H. apply andb_prop in H as [Hc Hl]. apply negb_true_iff in Hc.
  rewrite (IH Hl), Hc. reflexivity.
Qed.

Lemma beforeLast_last (p : ascii -> bool) (t u : list ascii) (c : ascii) :
  p c = true -> forallb (fun d => negb (p d)) u = true ->
  Lodash.beforeLast p (t ++ c :: u) = Some t.
Proof.
  intros Hc Hu. induction t as [|x t IH]; simpl.
  - rewrite (beforeLast_absent p u Hu), Hc. reflexivity.
  - rewrite IH. reflexivity.
Qed.

Lemma lodash_matchPropName_index (q : ascii) (t : list ascii) (segs : list Segment) :
  Lodash.isQuote q = false ->
  forallb plainChar (q :: t) = true -> trim (q :: t) = q :: t ->
  forallb segmentOk segs = true ->
  Lodash.matchPropName ("["%char :: (q :: t) ++ "]"%char :: chars (renderPath segs))
  = Some (text (q :: t), 3 + length t).
Proof.
  intros Hq Hplain Htrim Hsegs.
  simpl in Hplain. apply andb_prop in Hplain as [_ Ht].
  destruct (plain_not_open _ Ht) as [Hopen _].
  unfold Lodash.matchPropName.
  change (takeWhile (fun c => negb (Lodash.isSeparator c))
            ("["%char :: (q :: t) ++ "]"%char :: chars (renderPath segs))) with (@nil ascii).
  cbv beta iota.
  change (("["%char :: (q :: t) ++ "]"%char :: chars (renderPath segs)))
    with ("["%char :: q :: (t ++ "]"%char :: chars (renderPath segs))).
  cbn [app]. change (Ascii.eqb "[" "[") with true. cbv iota. rewrite Hq.
  rewrite stopAtOpen_run by exact Hopen.
  change (takeWhile (fun d => negb (Ascii.eqb d "["%char))
            ("]"%char :: chars (renderPath segs)))
    with ("]"%char :: takeWhile (fun d => negb (Ascii.eqb d "["%char))
                         (chars (renderPath segs))).
  rewrite (beforeLast_last (Ascii.eqb "]"%char) t _ "]"%char eq_refl
             (renderPath_no_close segs Hsegs)).
  rewrite Htrim. reflexivity.
Qed.

Lemma lodash_propNames_index (q : ascii) (t : list ascii) (segs : list Segment) :
  Lodash.isQuote q = false ->
  forallb plainChar (q :: t) = true -> trim (q :: t) = q :: t ->
  forallb segmentOk segs = true ->
  Lodash.propNames 0 ("["%char :: (q :: t) ++ "]"%char :: chars (renderPath segs))
  = text (q :: t) :: Lodash.propNames 0 (chars (renderPath segs)).
Proof.
  intros Hq Hplain Htrim Hsegs.
  change (Lodash.propNames 0 ("["%char :: (q :: t) ++ "]"%char :: chars (renderPath segs)))
    with (match Lodash.matchPropName
                  ("["%char :: (q :: t) ++ "]"%char :: chars (renderPath segs)) with
          | Some (key, len) =>
              key :: Lodash.propNames (pred len) ((q :: t) ++ "]"%char :: chars (renderPath segs))
          | None => Lodash.propNames 0 ((q :: t) ++ "]"%char :: chars (renderPath segs))
          end).
  rewrite (lodash_matchPropName_index q t segs Hq Hplain Htrim Hsegs).
  f_equal.
  replace ((q :: t) ++ "]"%char :: chars (renderPath segs))
    with (((q :: t) ++ ["]"%char]) ++ chars (renderPath segs))
    by (rewrite <- app_assoc; reflexivity).
  replace (pred (3 + length t)) with (length ((q :: t) ++ ["]"%char]))
    by (rewrite length_app; simpl; lia).
  apply lodash_propNames_skip.
Qed.

Lemma reduced_propNames_index (q : ascii) (t rest : list ascii) :
  forallb plainChar (q :: t) = true ->
  Reduced.propNames 0 ("["%char :: (q :: t) ++ "]"%char :: rest)
  = text (q :: t) :: Reduced.propNames 0 rest.
Proof.
  intros Hplain.
  change (Reduced.propNames 0 ("["%char :: (q :: t) ++ "]"%char :: rest))
    with (Reduced.propNames 0 ((q :: t) ++ "]"%char :: rest)).
  rewrite reduced_propNames_run; [reflexivity | exact Hplain | reflexivity].
Qed.

Lemma propNames_segments (segs : list Segment) :
  forallb segmentOk segs = true ->
  Lodash.propNames 0 (chars (renderPath segs)) = map segmentKey segs /\
  Reduced.propNames 0 (chars (renderPath segs)) = map segmentKey segs.
Proof.
  induction segs as [|[n|e] segs IH]; intros Hok; [split; reflexivity| |];
    simpl in Hok; apply andb_prop in Hok as [Hseg Hsegs];
    destruct (IH Hsegs) as [IHL IHR].
  - destruct (isName_chars n Hseg) as (c & run & Hc & Hrun).
    pose proof (Hrun' := Hrun). simpl in Hrun'. apply andb_prop in Hrun' as [Hpc _].
    change (renderPath (Dot n :: segs)) with ("." ++ n ++ renderPath segs)%string.
    rewrite !chars_append, Hc. change (chars ".") with ["."%char].
    change (["."%char] ++ (c :: run) ++ chars (renderPath segs))
      with ("."%char :: c :: (run ++ chars (renderPath segs))).
    rewrite lodash_propNames_dot by exact Hpc. rewrite reduced_propNames_dot.
    change (c :: run ++ chars (renderPath segs)) with ((c :: run) ++ chars (renderPath segs)).
    rewrite lodash_propNames_run, reduced_propNames_run;
      try exact Hrun; try apply renderPath_head.
    rewrite IHL, IHR, <- Hc, text_chars. split; reflexivity.
  - destruct (isIndexExpr_chars e Hseg) as (q & t & Hc & Hq & Hplain & Htrim).
    change (renderPath (Index e :: segs))
      with (("[" ++ e ++ "]") ++ renderPath segs)%string.
    rewrite !chars_append, Hc. change (chars "[") with ["["%char].
    change (chars "]") with ["]"%char].
    replace ((["["%char] ++ (q :: t) ++ ["]"%char]) ++ chars (renderPath segs))
      with ("["%char :: (q :: t) ++ "]"%char :: chars (renderPath segs))
      by (simpl; rewrite <- app_assoc; reflexivity).
    rewrite (lodash_propNames_index q t segs Hq Hplain Htrim Hsegs).
    rewrite (reduced_propNames_index q t _ Hplain).
    rewrite IHL, IHR, <- Hc, text_chars. split; reflexivity.
Qed.

Lemma stringToPath_name_segments (n : string) (segs : list Segment) :
  isName n = true -> forallb segmentOk segs = true ->
  Lodash.stringToPath (n ++ renderPath segs) = n :: map segmentKey segs /\
  Reduced.stringToPath (n ++ renderPath segs) = n :: map segmentKey segs.
Proof.
  intros Hn Hsegs.
  destruct (isName_chars n Hn) as (c & run & Hc & Hrun).
  destruct (propNames_segments segs Hsegs) as [HL HR].
  unfold Lodash.stringToPath, Reduced.stringToPath.
  rewrite chars_append, Hc.
  rewrite lodash_propNames_run, reduced_propNames_run;
    try exact Hrun; try apply renderPath_head.
  rewrite HL, HR, <- Hc, text_chars.
  simpl in Hrun. apply andb_prop in Hrun as [Hpc _].
  destruct (plainChar_not_separator c Hpc) as (Hdot & _).
  rewrite Hc. unfold Lodash.beginsWith. cbn [app]. rewrite Ascii.eqb_sym, Hdot.
  split; reflexivity.
Qed.

(** X1. A path written as a name followed by dotted names and bracketed
    indices, as [a[0].b], is normalized to the list of these names and
    indices, by [stringToPath] of [src/index.js] and by the one of
    [src/unnamed/part_000] alike. *)
Theorem stringToPath_segments (n : string) (segs : list Segment) :
  isName n = true -> forallb segmentOk segs = true ->
  Lodash.stringToPath (n ++ renderPath segs) = n :: map segmentKey segs /\
  Reduced.stringToPath (n ++ renderPath segs) = n :: map segmentKey segs.
Proof. exact (stringToPath_name_segments n segs). Qed.

Lemma stringToPath_segments_witness :
  Lodash.stringToPath "a[0].b[12]" = ["a"; "0"; "b"; "12"] /\
  Reduced.stringToPath "a[0].b[12]" = ["a"; "0"; "b"; "12"].
Proof.
  apply (stringToPath_segments "a" [Index "0"; Dot "b"; Index "12"]); reflexivity.
Defined.

(** ** [get] on names and bracketed indices *)

Lemma reIsPlainProp_separator (a b : list ascii) (c : ascii) :
  plainChar c = false -> forallb isWordChar (a ++ c :: b) = false.
Proof.
  intros Hc. rewrite forallb_app. cbn [forallb].
  assert (Hw : isWordChar c = false).
  { unfold plainChar, Lodash.isSeparator, Lodash.isBracket in Hc.
    apply negb_false_iff in Hc.
    apply orb_prop in Hc as [Hc|Hc]; [|apply orb_prop in Hc as [Hc|Hc]];
      apply Ascii.eqb_eq in Hc; rewrite Hc; reflexivity. }
  rewrite Hw. apply andb_false_r.
Qed.

Lemma reIsDeepProp_chars_index (a t rest : list ascii) :
  forallb plainChar t = true ->
  Lodash.reIsDeepProp_chars (a ++ "["%char :: t ++ "]"%char :: rest) = true.
Proof.
  intros Ht. induction a as [|c a IH].
  - cbn [app Lodash.reIsDeepProp_chars].
    assert (Hdeep : Lodash.deepBracket (t ++ "]"%char :: rest) = true).
    { unfold Lodash.deepBracket.
      assert (Hdrop : dropWhile (fun c => negb (Lodash.isBracket c)) (t ++ "]"%char :: rest)
                      = "]"%char :: rest).
      { clear - Ht. induction t as [|c t IH]; [reflexivity|].
        cbn [forallb] in Ht. apply andb_prop in Ht as [Hc Ht].
        destruct (plainChar_not_separator c Hc) as (_ & Hopen & Hclose).
        cbn [app dropWhile]. unfold Lodash.isBracket at 1. rewrite Hopen, Hclose.
        cbn [orb negb]. exact (IH Ht). }
      rewrite Hdrop. reflexivity. }
    rewrite Hdeep. reflexivity.
  - cbn [app Lodash.reIsDeepProp_chars]. rewrite IH. apply orb_true_r.
Qed.

Lemma isKey_segments (o : JSValue) (n : string) (seg : Segment) (segs : list Segment) :
  segmentOk seg = true ->
  hasProperty o (n ++ renderPath (seg :: segs)) = false ->
  Lodash.isKey (VString (n ++ renderPath (seg :: segs))) o = false /\
  Reduced.isKey (VString (n ++ renderPath (seg :: segs))) o = false.
Proof.
  intros Hseg Hown.
  assert (Hshape : Lodash.reIsPlainProp_test (n ++ renderPath (seg :: segs)) = false /\
                   Lodash.reIsDeepProp_test (n ++ renderPath (seg :: segs)) = true).
  { unfold Lodash.reIsPlainProp_test, Lodash.reIsDeepProp_test. rewrite chars_append.
    destruct seg as [m|e].
    - change (renderPath (Dot m :: segs)) with ("." ++ m ++ renderPath segs)%string.
      rewrite chars_append. change (chars ".") with ["."%char]. cbn [app].
      split; [apply reIsPlainProp_separator; reflexivity | apply reIsDeepProp_chars_dot].
    - destruct (isIndexExpr_chars e Hseg) as (q & t & Hc & _ & Hplain & _).
      change (renderPath (Index e :: segs))
        with (("[" ++ e ++ "]") ++ renderPath segs)%string.
      rewrite !chars_append, Hc. change (chars "[") with ["["%char].
      change (chars "]") with ["]"%char].
      replace ((["["%char] ++ (q :: t) ++ ["]"%char]) ++ chars (renderPath segs))
        with ("["%char :: (q :: t) ++ "]"%char :: chars (renderPath segs))
        by (simpl; rewrite <- app_assoc; reflexivity).
      split; [apply reIsPlainProp_separator; reflexivity
             | apply reIsDeepProp_chars_index; exact Hplain]. }
  destruct Hshape as [Hplain Hdeep].
  unfold Lodash.isKey, Reduced.isKey. cbn [isArray ToString].
  rewrite Hown, Hplain, Hdeep, andb_false_r. split; reflexivity.
Qed.

(** X2. [get(o, "a[0].b")] is the walk [o.a[0].b]: for a path written
    as a name followed by dotted names and bracketed indices that is not
    itself the name of a property of [o], both resolvers return what the
    key-by-key walk over the names and indices returns ([undefined] as
    soon as a container on the way is [null] or [undefined]). *)
Theorem get_path_is_walk (o : JSValue) (n : string) (segs : list Segment) :
  isName n = true -> forallb segmentOk segs = true ->
  hasProperty o (n ++ renderPath segs) = false ->
  Lodash.get o (VString (n ++ renderPath segs))
    = Return (walkKeys o (n :: map segmentKey segs)) /\
  Reduced.get o (VString (n ++ renderPath segs))
    = Return (walkKeys o (n :: map segmentKey segs)).
Proof.
  intros Hn Hsegs Hown.
  destruct (stringToPath_name_segments n segs Hn Hsegs) as [HL HR].
  assert (Hwalk : resolve_spec o (map VString (n :: map segmentKey segs))
                  = walkKeys o (n :: map segmentKey segs)).
  { exact (walkKeys_strings o (n :: map segmentKey segs)). }
  destruct segs as [|seg segs].
  - change (renderPath []) with EmptyString in *. rewrite append_nil_r in *.
    assert (Hone : resolve_spec o [VString n] = walkKeys o [n]) by reflexivity.
    split.
    + destruct (lodash_castPath_string o n) as [segments Hcast].
      rewrite (lodash_get_spec _ _ _ Hcast). f_equal.
      unfold Lodash.castPath in Hcast.
      destruct (Lodash.isKey (VString n) o); injection Hcast as <-.
      * exact Hone.
      * rewrite HL. exact Hwalk.
    + destruct (reduced_castPath_string o n) as [segments Hcast].
      rewrite (reduced_get_spec _ _ _ Hcast). f_equal.
      unfold Reduced.castPath in Hcast.
      destruct (Reduced.isKey (VString n) o); injection Hcast as <-.
      * exact Hone.
      * rewrite HR. exact Hwalk.
  - cbn [forallb] in Hsegs. apply andb_prop in Hsegs as [Hseg _].
    destruct (isKey_segments o n seg segs Hseg Hown) as [HkL HkR]. split.
    + rewrite (lodash_get_spec o _ (map VString (n :: map segmentKey (seg :: segs)))).
      * rewrite Hwalk. reflexivity.
      * unfold Lodash.castPath. rewrite HkL, HL. reflexivity.
    + rewrite (reduced_get_spec o _ (map VString (n :: map segmentKey (seg :: segs)))).
      * rewrite Hwalk. reflexivity.
      * unfold Reduced.castPath. rewrite HkR, HR. reflexivity.
Qed.

Lemma get_path_is_walk_witness :
  Lodash.get nested (VString "a[0].b.c") = Return (VNumber 3) /\
  Reduced.get nested (VString "a[0].b.c") = Return (VNumber 3).
Proof.
  apply (get_path_is_walk nested "a" [Index "0"; Dot "b"; Dot "c"]); reflexivity.
Defined.

(** ** The first error ends the evaluation *)

(** X23. When the rules before a rule evaluate without an error and that
    rule throws, [checkConditions] throws that error and leaves the world
    as that rule left it: the rules after it are not evaluated, their
    callbacks are not called, and neither is [log]. *)
Theorem first_error_ends_evaluation
    (get : JSValue -> JSValue -> Outcome JSValue) (toString : JSValue -> string)
    (printsTypeof : bool) (s : Settings) (pre post : list Rule) (r : Rule)
    (c : Counters) (w w1 w2 : World) (results : list bool) (e : JSError) :
  rules s = Some (pre ++ r :: post) ->
  Evaluator.mapRules get toString printsTypeof s pre 0 noCounters w
    = (Return (results, c), w1) ->
  Evaluator.ruleCallback get toString printsTypeof s r (length pre) c w1 = (Throw e, w2) ->
  Evaluator.checkConditions get toString printsTypeof (Some s) w = (Throw e, w2).
Proof. apply checkConditions_throws_at. Qed.

Lemma first_error_ends_evaluation_witness :
  checkConditions (Some unnamedSecond) (worldOf account)
  = (Throw (Error "Property not specified for rule 1" (Some unnamedRule)), worldOf account).
Proof.
  apply (first_error_ends_evaluation Lodash.get Lodash.toString true unnamedSecond
           [rule "a" "eq" (VNumber 1)] [] unnamedRule
           (mkCounters ("(0) a (1)  eq 1? true" ++ nl) 0 1)
           (worldOf account) (worldOf account) (worldOf account) [true]);
    reflexivity.
Defined.
